(** * Input derivation of the rollup node: [opnode/l2/input_derivation.go]

    A shallow embedding of the deposit-log decoder, the L1-info deposit
    builder, the user-deposit deriver and the block-input deriver, with the
    properties the specification states about them.

    Conventions of the embedding:
    - [[]byte] is [list byte]; [common.Hash] and [common.Address] are byte
      lists too (32 and 20 bytes in Go);
    - [uint64] values are [Z], additions and subtractions on them are written
      with their wrap-around ([add64], [sub64]);
    - [*big.Int] and [uint256.Int] values are [Z]; a pointer that the code
      sets to [nil] or that may arrive as [nil] is an [option];
    - a Go result [(x, err)] with a slice or pointer [x] is a pair; a run-time
      panic is the [Panic] outcome;
    - library functions that are not part of the repository
      ([types.DeriveSha], [Transaction.MarshalBinary]) are section variables;
      Keccak-256 is implemented and checked against published digests. *)

From Stdlib Require Import Strings.String Strings.Byte Strings.Ascii.
From Stdlib Require Import ZArith List Lia Bool.
Import ListNotations.
Local Open Scope Z_scope.

(* ================================================================== *)
(** ** Bytes, big-endian integers and slices *)

Definition bytes := list byte.

Definition b2z (b : byte) : Z := Z.of_N (Byte.to_N b).

Definition z2b (z : Z) : byte :=
  match Byte.of_N (Z.to_N (z mod 256)) with
  | Some b => b
  | None => x00
  end.

Fixpoint bytes_eqb (a b : bytes) : bool :=
  match a, b with
  | [], [] => true
  | x :: a', y :: b' => Byte.eqb x y && bytes_eqb a' b'
  | _, _ => false
  end.

(** Go's [s[lo:hi]]; every use below is within bounds (see
    [UnmarshalLogEvent_slices_in_bounds]). *)
Definition slice {A : Type} (s : list A) (lo hi : Z) : list A :=
  firstn (Z.to_nat (hi - lo)) (skipn (Z.to_nat lo) s).

(** Go's [s[i]] on a byte slice. *)
Definition index (s : bytes) (i : Z) : byte := nth (Z.to_nat i) s x00.

(** Go's [make([]byte, n)]. *)
Definition make (n : nat) : bytes := repeat x00 n.

(** Go's [copy(dst[lo:hi], src)]: [min (hi - lo) (len src)] bytes of [src]
    are written at [dst[lo:]]. *)
Definition copy (dst : bytes) (lo hi : Z) (src : bytes) : bytes :=
  let n := Nat.min (Z.to_nat (hi - lo)) (List.length src) in
  firstn (Z.to_nat lo) dst ++ firstn n src ++ skipn (Z.to_nat lo + n) dst.

(** [big.Int.SetBytes]: the big-endian unsigned integer of a byte slice. *)
Definition SetBytes (bs : bytes) : Z :=
  fold_left (fun acc b => acc * 256 + b2z b) bs 0.

(** [uint256.Int.SetBytes]: as above on the last 32 bytes. *)
Definition SetBytes256 (bs : bytes) : Z :=
  SetBytes (skipn (List.length bs - 32) bs).

(** The [n]-byte big-endian form of a natural number (its low [8n] bits). *)
Fixpoint be_encode (n : nat) (z : Z) : bytes :=
  match n with
  | O => []
  | S n' => be_encode n' (z / 256) ++ [z2b z]
  end.

(** [binary.BigEndian.PutUint64(b, v)]: [b[0] = byte(v >> 56)], ...,
    [b[7] = byte(v)]. *)
Definition PutUint64 (v : Z) : bytes :=
  map (fun s => z2b (Z.shiftr v s)) [56; 48; 40; 32; 24; 16; 8; 0].

Definition two64 : Z := 2 ^ 64.
Definition add64 (a b : Z) : Z := (a + b) mod two64.
Definition sub64 (a b : Z) : Z := (a - b) mod two64.
Definition IsUint64 (z : Z) : bool := (0 <=? z) && (z <? two64).
(** [x.Uint64()]: the low 64 bits. *)
Definition Uint64 (z : Z) : Z := z mod two64.

(* ================================================================== *)
(** ** Keccak-256 ([crypto.Keccak256], from the go-ethereum library)

    The original Keccak with rate 136 bytes and padding byte [0x01]; the
    same sponge with padding [0x06] is SHA3-256, which gives a second set of
    published digests to check the permutation against. *)

Module Keccak.

Definition lane := Z.
Definition mask64 : Z := Z.ones 64.
Definition rotl64 (x : lane) (n : Z) : lane :=
  Z.land (Z.lor (Z.shiftl x n) (Z.shiftr x (64 - n))) mask64.
Definition not64 (x : lane) : lane := Z.lxor x mask64.

Definition RC : list lane :=
  [ 0x0000000000000001; 0x0000000000008082; 0x800000000000808A;
    0x8000000080008000; 0x000000000000808B; 0x0000000080000001;
    0x8000000080008081; 0x8000000000008009; 0x000000000000008A;
    0x0000000000000088; 0x0000000080008009; 0x000000008000000A;
    0x000000008000808B; 0x800000000000008B; 0x8000000000008089;
    0x8000000000008003; 0x8000000000008002; 0x8000000000000080;
    0x000000000000800A; 0x800000008000000A; 0x8000000080008081;
    0x8000000000008080; 0x0000000080000001; 0x8000000080008008 ].

(** Rotation offsets, lane [(x, y)] at position [x + 5 * y]. *)
Definition ROT : list Z :=
  [  0;  1; 62; 28; 27;
    36; 44;  6; 55; 20;
     3; 10; 43; 25; 39;
    41; 45; 15; 21;  8;
    18;  2; 61; 56; 14 ].

Definition idx (x y : nat) : nat := (x mod 5 + 5 * (y mod 5))%nat.
Definition get (a : list lane) (x y : nat) : lane := nth (idx x y) a 0.
Definition coords : list (nat * nat) :=
  flat_map (fun y => map (fun x => (x, y)) (seq 0 5)) (seq 0 5).
Definition build (f : nat -> nat -> lane) : list lane :=
  map (fun p => f (fst p) (snd p)) coords.

Definition theta (a : list lane) : list lane :=
  let c x := fold_left Z.lxor (map (get a x) (seq 0 5)) 0 in
  let cs := map c (seq 0 5) in
  let d x :=
    Z.lxor (nth ((x + 4) mod 5) cs 0) (rotl64 (nth ((x + 1) mod 5) cs 0) 1) in
  let ds := map d (seq 0 5) in
  build (fun x y => Z.lxor (get a x y) (nth x ds 0)).

(** [B[y, 2x+3y] = rotl (A[x, y]) r[x, y]], read from the target: lane
    [(X, Y)] of [B] is the rotated lane [(X + 3Y, X)] of [A]. *)
Definition rho_pi (a : list lane) : list lane :=
  build (fun X Y =>
           let x := ((X + 3 * Y) mod 5)%nat in
           let y := X in
           rotl64 (get a x y) (nth (idx x y) ROT 0)).

Definition chi (b : list lane) : list lane :=
  build (fun x y =>
           Z.lxor (get b x y)
                  (Z.land (not64 (get b (x + 1) y)) (get b (x + 2) y))).

Definition iota (rc : lane) (a : list lane) : list lane :=
  match a with
  | [] => []
  | a0 :: rest => Z.lxor a0 rc :: rest
  end.

Definition round (a : list lane) (rc : lane) : list lane :=
  iota rc (chi (rho_pi (theta a))).

Definition keccak_f (a : list lane) : list lane := fold_left round RC a.

Definition rate : nat := 136.

Fixpoint le_decode (bs : bytes) : Z :=
  match bs with
  | [] => 0
  | b :: rest => b2z b + 256 * le_decode rest
  end.

Fixpoint le_encode (n : nat) (z : Z) : bytes :=
  match n with
  | O => []
  | S n' => z2b z :: le_encode n' (z / 256)
  end.

Fixpoint lanes_of (n : nat) (bs : bytes) : list lane :=
  match n with
  | O => []
  | S n' => le_decode (firstn 8 bs) :: lanes_of n' (skipn 8 bs)
  end.

Fixpoint xor_into (a blk : list lane) : list lane :=
  match a, blk with
  | x :: a', y :: blk' => Z.lxor x y :: xor_into a' blk'
  | _, _ => a
  end.

Definition pad (dsbyte : Z) (msg : bytes) : bytes :=
  let q := (rate - (List.length msg mod rate))%nat in
  match q with
  | 1%nat => msg ++ [z2b (Z.lor dsbyte 0x80)]
  | _ => msg ++ [z2b dsbyte] ++ repeat x00 (q - 2) ++ [x80]
  end.

Fixpoint absorb (nblocks : nat) (bs : bytes) (a : list lane) : list lane :=
  match nblocks with
  | O => a
  | S n' =>
      absorb n' (skipn rate bs)
             (keccak_f (xor_into a (lanes_of 17 (firstn rate bs))))
  end.

Definition sponge (dsbyte : Z) (msg : bytes) : bytes :=
  let p := pad dsbyte msg in
  let a := absorb (List.length p / rate) p (repeat 0 25) in
  firstn 32 (flat_map (le_encode 8) a).

Definition keccak256 : bytes -> bytes := sponge 0x01.
Definition sha3_256 : bytes -> bytes := sponge 0x06.

End Keccak.

(* ================================================================== *)
(** ** The [common] and [crypto] packages *)

Module common.

Definition Hash := bytes.
Definition Address := bytes.
Definition AddressLength : nat := 20.

(** [Address.SetBytes]: a longer slice is cropped from the left, a shorter
    one is right-aligned in the zeroed array. *)
Definition BytesToAddress (b : bytes) : Address :=
  let b :=
    if (AddressLength <? List.length b)%nat
    then skipn (List.length b - AddressLength) b
    else b in
  repeat x00 (AddressLength - List.length b) ++ b.

Definition hex_digit (c : ascii) : Z :=
  let n := Z.of_nat (nat_of_ascii c) in
  if (48 <=? n) && (n <=? 57) then n - 48
  else if (97 <=? n) && (n <=? 102) then n - 87
  else if (65 <=? n) && (n <=? 70) then n - 55
  else 0.

Fixpoint hex_pairs (s : string) : bytes :=
  match s with
  | String hi (String lo rest) =>
      z2b (16 * hex_digit hi + hex_digit lo) :: hex_pairs rest
  | _ => []
  end.

Definition has0xPrefix (s : string) : bool :=
  match s with
  | String "0" (String c _) => (Ascii.eqb c "x" || Ascii.eqb c "X")%bool
  | _ => false
  end.

(** [common.FromHex]: the [0x] prefix is optional, an odd number of digits
    gets a leading zero. *)
Definition FromHex (s : string) : bytes :=
  let s := if has0xPrefix s then String.substring 2 (String.length s - 2) s
           else s in
  let s := if Nat.odd (String.length s) then String "0" s else s in
  hex_pairs s.

Definition HexToAddress (s : string) : Address := BytesToAddress (FromHex s).

(** [common.Address{}] *)
Definition ZeroAddress : Address := repeat x00 AddressLength.

End common.

Module crypto.
Definition Keccak256 (data : bytes) : bytes := Keccak.keccak256 data.
Definition Keccak256Hash (data : bytes) : common.Hash := Keccak.keccak256 data.
End crypto.

(* ================================================================== *)
(** ** Go results: errors and panics *)

(** The errors the file builds with [fmt.Errorf], one constructor per format
    string, carrying the values the format prints. *)
Inductive error : Type :=
| ErrTopicCount
    (* "expected 3 event topics (event identity, indexed from, indexed to)" *)
| ErrEventSelector (got expected : common.Hash)
    (* "invalid deposit event selector: %s, expected %s" *)
| ErrDataTooSmall (len : Z) (data : bytes)
    (* "deposit event data too small (%d bytes): %x" *)
| ErrBadGas (raw : bytes)
    (* "bad gas value: %x" *)
| ErrDataOffset (limb0 : Z)
    (* "incorrect data offset: %v" *)
| ErrDataTooLarge (dataLen : Z)
    (* "data too large: %s" *)
| ErrDataLenTooLong (dataLen maxExpectedLen : Z)
    (* "data length too long: %d, expected max %d" *)
| ErrMalformattedLog (cause : error)
    (* "malformatted L1 deposit log: %v" *)
| ErrReceiptsRoot (receiptHash : common.Hash)
    (* "receipts are not consistent with the block's receipts root: %s" *)
| ErrEncodeL1Info
    (* "failed to encode L1 info tx" *)
| ErrDeriveUserDeposits (cause : error)
    (* "failed to derive user deposits: %v" *)
| ErrEncodeUserTx (i : Z)
    (* "failed to encode user tx %d" *)
| ErrLibrary (msg : string)
    (* an error returned by a library call *).

(** The specification's error classes. *)
Definition MalformedEvent (e : error) : Prop :=
  match e with
  | ErrTopicCount | ErrEventSelector _ _ | ErrDataTooSmall _ _ | ErrBadGas _
  | ErrDataOffset _ | ErrDataTooLarge _ | ErrDataLenTooLong _ _ => True
  | _ => False
  end.

Definition IntegrityMismatch (e : error) : Prop :=
  match e with
  | ErrReceiptsRoot _ => True
  | _ => False
  end.

(** A pointer result with its error: exactly one of them is non-nil. *)
Inductive result (A : Type) : Type :=
| Ok (a : A)
| Err (e : error).
Arguments Ok {A} a.
Arguments Err {A} e.

Inductive panic : Type :=
| NilDereference
| BufferTooSmall
| LibraryPanic.

(** A call either panics or returns. *)
Inductive outcome (A : Type) : Type :=
| Panic (p : panic)
| Ret (a : A).
Arguments Panic {A} p.
Arguments Ret {A} a.

Definition bind {A B : Type} (m : outcome A) (k : A -> outcome B) : outcome B :=
  match m with
  | Panic p => Panic p
  | Ret a => k a
  end.

Notation "x <- m ;; k" := (bind m (fun x => k))
  (at level 61, m at next level, right associativity).

(** [x.FillBytes(buf)] on a [*big.Int]: the absolute value, big-endian, in a
    zeroed buffer of [n] bytes; it panics on a nil receiver and when the value
    does not fit. *)
Definition FillBytes (x : option Z) (n : nat) : outcome bytes :=
  match x with
  | None => Panic NilDereference
  | Some v =>
      if Z.abs v <? 256 ^ Z.of_nat n
      then Ret (be_encode n (Z.abs v))
      else Panic BufferTooSmall
  end.

(* ================================================================== *)
(** ** Data model ([types.Log], [types.Receipt], [types.DepositTx],
       [PayloadAttributes]) *)

Module Log.
(** The consensus fields of a log, and its position in the transaction
    list and in the block as the chain recorded them; the block and
    transaction hashes and the [Removed] flag, which the derivation never
    reads either, are left out. *)
Record t : Type := {
  Address : common.Address;
  Topics : list common.Hash;
  Data : bytes;
  TxIndex : Z;
  Index : Z
}.
End Log.

Module Receipt.
(** Of a receipt the derivation reads the status and the logs. *)
Record t : Type := {
  Status : Z;
  Logs : list Log.t
}.
End Receipt.

Definition ReceiptStatusSuccessful : Z := 1.

Module DepositTx.
(** The deposit transaction type of the go-ethereum fork the node is built
    on, with the fields the code sets; [To] and [Mint] are pointers that may
    be nil. *)
Record t : Type := {
  BlockHeight : Z;
  TransactionIndex : Z;
  From : common.Address;
  To : option common.Address;
  Mint : option Z;
  Value : Z;
  Gas : Z;
  Data : bytes
}.
End DepositTx.

Module PayloadAttributes.
(** Modelled from the spec: the [PayloadAttributes] struct and the types of
    its fields ([Uint64Quantity], [Bytes32], [Data]) are declared in a file
    of the package that is not among the sources.  The specification gives
    the fields: a timestamp, 32 bytes of randomness, the suggested fee
    recipient and the ordered sequence of opaque encoded transactions;
    [DeriveBlockInputs] fills them under these names. *)
Record t : Type := {
  Timestamp : Z;
  Random : common.Hash;
  SuggestedFeeRecipient : common.Address;
  Transactions : list bytes
}.
End PayloadAttributes.

(** The interfaces a block is read through. *)
Class L1Info (B : Type) : Type := {
  NumberU64 : B -> Z; Time : B -> Z;
  Hash : B -> common.Hash;
  BaseFee : B -> option Z
}.

Class ReceiptHash (B : Type) : Type := {
  GetReceiptHash : B -> common.Hash   (* the method [ReceiptHash()] *)
}.

Class BlockInput (B : Type) : Type := {
  BlockInput_ReceiptHash :: ReceiptHash B;
  BlockInput_L1Info :: L1Info B;
  MixDigest : B -> common.Hash
}.

(* ================================================================== *)
(** ** Protocol constants *)

Definition DepositEventABI : string :=
  "TransactionDeposited(address,address,uint256,uint256,uint256,bool,bytes)".
Definition DepositEventABIHash : common.Hash :=
  crypto.Keccak256Hash (list_byte_of_string DepositEventABI).
Definition DepositContractAddr : common.Address :=
  common.HexToAddress "0xdeaddeaddeaddeaddeaddeaddeaddeaddead0001".
Definition L1InfoFuncSignature : string :=
  "setL1BlockValues(uint256 _number, uint256 _timestamp, uint256 _basefee, bytes32 _hash)".
Definition L1InfoFuncBytes4 : bytes :=
  slice (crypto.Keccak256 (list_byte_of_string L1InfoFuncSignature)) 0 4.
Definition L1InfoPredeployAddr : common.Address :=
  common.HexToAddress "0x4242424242424242424242424242424242424242".

(** The setter's signature in the canonical form of the contract ABI: the
    name and the parameter types, without names or spaces.  It is not what
    [L1InfoFuncSignature] holds. *)
Definition L1InfoCanonicalSignature : string :=
  "setL1BlockValues(uint256,uint256,uint256,bytes32)".

(* ================================================================== *)
(** ** The deposit log decoder *)

Definition UnmarshalLogEvent (blockNum txIndex : Z) (ev : Log.t)
  : result DepositTx.t :=
  if negb (List.length (Log.Topics ev) =? 3)%nat then
    Err ErrTopicCount
  else if negb (bytes_eqb (nth 0 (Log.Topics ev) []) DepositEventABIHash) then
    Err (ErrEventSelector (nth 0 (Log.Topics ev) []) DepositEventABIHash)
  else if Z.of_nat (List.length (Log.Data ev)) <? 6 * 32 then
    Err (ErrDataTooSmall (Z.of_nat (List.length (Log.Data ev))) (Log.Data ev))
  else
    (* indexed 0 *)
    let from := common.BytesToAddress (skipn 12 (nth 1 (Log.Topics ev) [])) in
    (* indexed 1 *)
    let to := common.BytesToAddress (skipn 12 (nth 2 (Log.Topics ev) [])) in
    (* unindexed data *)
    let offset := 0 in
    let value := SetBytes (slice (Log.Data ev) offset (add64 offset 32)) in
    let offset := add64 offset 32 in
    let mint := SetBytes (slice (Log.Data ev) offset (add64 offset 32)) in
    (* 0 mint is represented as nil to skip minting code *)
    let mint := if mint =? 0 then None else Some mint in
    let offset := add64 offset 32 in
    let gas := SetBytes (slice (Log.Data ev) offset (add64 offset 32)) in
    if negb (IsUint64 gas) then
      Err (ErrBadGas (slice (Log.Data ev) offset (add64 offset 32)))
    else
      let offset := add64 offset 32 in
      let depGas := Uint64 gas in
      let depTo :=
        if Byte.eqb (index (Log.Data ev) (add64 offset 31)) x00
        then Some to else None in
      let offset := add64 offset 32 in
      let dataOffset :=
        SetBytes256 (slice (Log.Data ev) offset (add64 offset 32)) in
      let offset := add64 offset 32 in
      if dataOffset =? 128 then
        Err (ErrDataOffset (Uint64 dataOffset))
      else
        let dataLen :=
          SetBytes256 (slice (Log.Data ev) offset (add64 offset 32)) in
        let offset := add64 offset 32 in
        if negb (IsUint64 dataLen) then
          Err (ErrDataTooLarge dataLen)
        else
          (* The data may be padded to a multiple of 32 bytes *)
          let maxExpectedLen :=
            sub64 (Z.of_nat (List.length (Log.Data ev))) offset in
          let dataLenU64 := Uint64 dataLen in
          if maxExpectedLen <? dataLenU64 then
            Err (ErrDataLenTooLong dataLenU64 maxExpectedLen)
          else
            (* remaining bytes fill the data *)
            Ok {| DepositTx.BlockHeight := blockNum;
                  DepositTx.TransactionIndex := txIndex;
                  DepositTx.From := from;
                  DepositTx.To := depTo;
                  DepositTx.Mint := mint;
                  DepositTx.Value := value;
                  DepositTx.Gas := depGas;
                  DepositTx.Data :=
                    slice (Log.Data ev) offset (add64 offset dataLenU64) |}.

(* ================================================================== *)
(** ** The L1-info deposit *)

Definition DeriveL1InfoDeposit {B : Type} `{L1Info B} (block : B)
  : outcome DepositTx.t :=
  let data := make (4 + 8 + 8 + 32 + 32) in
  let offset := 0 in
  let data := copy data offset 4 L1InfoFuncBytes4 in
  let offset := offset + 4 in
  let data := copy data offset (offset + 8) (PutUint64 (NumberU64 block)) in
  let offset := offset + 8 in
  let data := copy data offset (offset + 8) (PutUint64 (Time block)) in
  let offset := offset + 8 in
  baseFee <- FillBytes (BaseFee block) 32 ;;
  let data := copy data offset (offset + 32) baseFee in
  let offset := offset + 32 in
  let data := copy data offset (offset + 32) (Hash block) in
  Ret {| DepositTx.BlockHeight := NumberU64 block;
         DepositTx.TransactionIndex := 0; (* always the first transaction *)
         DepositTx.From := DepositContractAddr;
         DepositTx.To := Some L1InfoPredeployAddr;
         DepositTx.Mint := None;
         DepositTx.Value := 0;
         DepositTx.Gas := 99999999;
         DepositTx.Data := data |}.

(* ================================================================== *)
(** ** User deposits *)

(** The inner loop of [DeriveUserDeposits] over the logs of one receipt;
    [out] is the slice built so far, an error leaves the function. *)
Fixpoint scan_logs (height : Z) (logs : list Log.t) (out : list DepositTx.t)
  : result (list DepositTx.t) :=
  match logs with
  | [] => Ok out
  | log :: rest =>
      if bytes_eqb (Log.Address log) DepositContractAddr then
        (* offset transaction index by 1, the first is the l1-info tx *)
        match UnmarshalLogEvent height
                (add64 (Z.of_nat (List.length out)) 1) log with
        | Err err => Err (ErrMalformattedLog err)
        | Ok dep => scan_logs height rest (out ++ [dep])
        end
      else scan_logs height rest out
  end.

(** The outer loop over the receipts. *)
Fixpoint scan_receipts (height : Z) (receipts : list Receipt.t)
  (out : list DepositTx.t) : result (list DepositTx.t) :=
  match receipts with
  | [] => Ok out
  | rec :: rest =>
      if negb (Receipt.Status rec =? ReceiptStatusSuccessful) then
        scan_receipts height rest out
      else
        match scan_logs height (Receipt.Logs rec) out with
        | Err err => Err err
        | Ok out' => scan_receipts height rest out'
        end
  end.

(** The function returns [(nil, err)] or [(out, nil)]. *)
Definition DeriveUserDeposits (height : Z) (receipts : list Receipt.t)
  : list DepositTx.t * option error :=
  match scan_receipts height receipts [] with
  | Err err => ([], Some err)
  | Ok out => (out, None)
  end.

(* ================================================================== *)
(** ** Receipts check and block inputs *)

Section BlockInputs.

(** [types.DeriveSha(types.Receipts(receipts), trie.NewStackTrie(nil))]. *)
Variable DeriveSha : list Receipt.t -> common.Hash.

(** [types.NewTx(tx).MarshalBinary()]: the bytes and the error of the
    library's encoder, which may also panic. *)
Variable MarshalBinary : DepositTx.t -> outcome (bytes * option error).

(** CheckReceipts sanity checks that the receipts are consistent with the
    block data. *)
Definition CheckReceipts {B : Type} `{ReceiptHash B} (block : B)
  (receipts : list Receipt.t) : bool :=
  let computed := DeriveSha receipts in
  bytes_eqb (GetReceiptHash block) computed.

(** The loop that encodes the user deposits, [i] being the loop index and
    [encodedTxs] the slice appended to. *)
Fixpoint encode_user_txs (i : Z) (userDeposits : list DepositTx.t)
  (encodedTxs : list bytes) : outcome (result (list bytes)) :=
  match userDeposits with
  | [] => Ret (Ok encodedTxs)
  | tx :: rest =>
      r <- MarshalBinary tx ;;
      match snd r with
      | Some _ => Ret (Err (ErrEncodeUserTx i))
      | None => encode_user_txs (i + 1) rest (encodedTxs ++ [fst r])
      end
  end.

Definition DeriveBlockInputs {B : Type} `{BlockInput B} (block : B)
  (receipts : list Receipt.t)
  : outcome (option PayloadAttributes.t * option error) :=
  if negb (CheckReceipts block receipts) then
    Ret (None, Some (ErrReceiptsRoot (GetReceiptHash block)))
  else
    l1Tx <- DeriveL1InfoDeposit block ;;
    r <- MarshalBinary l1Tx ;;
    let opaqueL1Tx := fst r in
    match snd r with
    | Some _ => Ret (None, Some ErrEncodeL1Info)
    | None =>
        let (userDeposits, err) :=
          DeriveUserDeposits (NumberU64 block) receipts in
        match err with
        | Some err => Ret (None, Some (ErrDeriveUserDeposits err))
        | None =>
            let encodedTxs := [] in
            let encodedTxs := encodedTxs ++ [opaqueL1Tx] in
            r <- encode_user_txs 0 userDeposits encodedTxs ;;
            match r with
            | Err err => Ret (None, Some err)
            | Ok encodedTxs =>
                Ret (Some {| PayloadAttributes.Timestamp := Time block;
                             PayloadAttributes.Random := MixDigest block;
                             (* nobody gets tx fees for deposits *)
                             PayloadAttributes.SuggestedFeeRecipient :=
                               common.ZeroAddress;
                             PayloadAttributes.Transactions := encodedTxs |},
                     None)
            end
        end
    end.

End BlockInputs.

(* ================================================================== *)
(** ** The specification's vocabulary *)

(** A Go slice holds at most [MaxInt] elements ([len] is an [int]). *)
Definition MaxInt : Z := 2 ^ 63 - 1.
Definition fits_int (n : nat) : Prop := Z.of_nat n <= MaxInt.

(** The [k]-th fixed 32-byte field of a payload, read as an unsigned
    big-endian integer: value, mint, gas, creation flag, data offset and data
    length for [k] from 0 to 5. *)
Definition field (d : bytes) (k : nat) : Z :=
  SetBytes (firstn 32 (skipn (32 * k) d)).

(** The bytes left in the payload after the six fixed fields. *)
Definition remaining (d : bytes) : Z := Z.of_nat (List.length d) - 192.

(** The rejection conditions of the decoder, as the specification lists
    them. *)
Definition rejected (ev : Log.t) : Prop :=
  List.length (Log.Topics ev) <> 3%nat
  \/ nth 0 (Log.Topics ev) [] <> DepositEventABIHash
  \/ Z.of_nat (List.length (Log.Data ev)) < 192
  \/ two64 <= field (Log.Data ev) 2
  \/ field (Log.Data ev) 4 = 128
  \/ two64 <= field (Log.Data ev) 5
  \/ remaining (Log.Data ev) < field (Log.Data ev) 5.

(** The logs [DeriveUserDeposits] is specified to keep: those of the
    receipts with successful status that the deposit contract emitted, in
    receipt order and, within a receipt, in log order. *)
Definition keptLogs (receipts : list Receipt.t) : list Log.t :=
  flat_map
    (fun rec =>
       if Receipt.Status rec =? ReceiptStatusSuccessful
       then filter (fun log => bytes_eqb (Log.Address log) DepositContractAddr)
                   (Receipt.Logs rec)
       else [])
    receipts.

(** The specified result on the kept logs: each is decoded with the next
    index, counting from [i]; the first failure is the result. *)
Fixpoint decode_from (height i : Z) (logs : list Log.t)
  : result (list DepositTx.t) :=
  match logs with
  | [] => Ok []
  | ev :: rest =>
      match UnmarshalLogEvent height i ev with
      | Err err => Err (ErrMalformattedLog err)
      | Ok dep =>
          match decode_from height (i + 1) rest with
          | Err err => Err err
          | Ok deps => Ok (dep :: deps)
          end
      end
  end.

(** A log whose payload is [d] with the data-offset field (bytes 128 to 160)
    overwritten by [off]. *)
Definition with_data_offset (ev : Log.t) (off : bytes) : Log.t :=
  {| Log.Address := Log.Address ev;
     Log.Topics := Log.Topics ev;
     Log.Data := firstn 128 (Log.Data ev) ++ off ++ skipn 160 (Log.Data ev);
     Log.TxIndex := Log.TxIndex ev;
     Log.Index := Log.Index ev |}.

(** The receipts with the recorded positions of their logs replaced by
    those [pos] gives. *)
Definition reposition_log (pos : Log.t -> Z * Z) (ev : Log.t) : Log.t :=
  {| Log.Address := Log.Address ev;
     Log.Topics := Log.Topics ev;
     Log.Data := Log.Data ev;
     Log.TxIndex := fst (pos ev);
     Log.Index := snd (pos ev) |}.

Definition reposition (pos : Log.t -> Z * Z) (rec : Receipt.t) : Receipt.t :=
  {| Receipt.Status := Receipt.Status rec;
     Receipt.Logs := map (reposition_log pos) (Receipt.Logs rec) |}.


(** The creation flag: the last byte of the fourth 32-byte field. *)
Definition creation_flag (d : bytes) : byte :=
  last (firstn 32 (skipn (32 * 3) d)) x00.

(** A log with its topics, or its payload, replaced. *)
Definition with_topics (ev : Log.t) (topics : list common.Hash) : Log.t :=
  {| Log.Address := Log.Address ev;
     Log.Topics := topics;
     Log.Data := Log.Data ev;
     Log.TxIndex := Log.TxIndex ev;
     Log.Index := Log.Index ev |}.

Definition with_data (ev : Log.t) (data : bytes) : Log.t :=
  {| Log.Address := Log.Address ev;
     Log.Topics := Log.Topics ev;
     Log.Data := data;
     Log.TxIndex := Log.TxIndex ev;
     Log.Index := Log.Index ev |}.

(** The zero bytes that pad [n] bytes of dynamic data to a multiple of 32
    in the contract ABI. *)
Definition abi_padding (n : nat) : bytes := repeat x00 ((32 - n mod 32) mod 32).

(** The log of the event as the comment above [UnmarshalLogEvent] declares
    it,
      [event TransactionDeposited(address indexed from, address indexed to,
         uint256 mint, uint256 value, uint256 gasLimit, bool isCreation,
         data data)],
    in the encoding of the contract ABI: the hash of the event signature and
    the two indexed addresses, left-padded to 32 bytes, are the topics; the
    payload holds the unindexed fields in the order of the declaration, each
    static one as a 32-byte big-endian word and the dynamic [data] (of type
    [bytes] in [DepositEventABI]) as the offset of its tail (five words,
    160), then the tail: the length of the data, the data and their zero
    padding. *)
Definition TransactionDeposited (from to : common.Address)
  (mint value gasLimit : Z) (isCreation : bool) (data : bytes) : Log.t :=
  {| Log.Address := DepositContractAddr;
     Log.Topics := [DepositEventABIHash;
                    repeat x00 12 ++ from;
                    repeat x00 12 ++ to];
     Log.Data :=
       be_encode 32 mint ++ be_encode 32 value ++ be_encode 32 gasLimit
         ++ be_encode 32 (if isCreation then 1 else 0)
         ++ be_encode 32 (5 * 32)
         ++ be_encode 32 (Z.of_nat (List.length data))
         ++ data ++ abi_padding (List.length data);
     Log.TxIndex := 0;
     Log.Index := 0 |}.

(** A deposit with its index moved up by [n]. *)
Definition add_index (n : Z) (dep : DepositTx.t) : DepositTx.t :=
  {| DepositTx.BlockHeight := DepositTx.BlockHeight dep;
     DepositTx.TransactionIndex := DepositTx.TransactionIndex dep + n;
     DepositTx.From := DepositTx.From dep;
     DepositTx.To := DepositTx.To dep;
     DepositTx.Mint := DepositTx.Mint dep;
     DepositTx.Value := DepositTx.Value dep;
     DepositTx.Gas := DepositTx.Gas dep;
     DepositTx.Data := DepositTx.Data dep |}.

(** A payload with its bytes 96 to 127, the creation-flag field without its
    last byte, overwritten by [hi]. *)
Definition with_flag_high_bytes (ev : Log.t) (hi : bytes) : Log.t :=
  with_data ev (firstn 96 (Log.Data ev) ++ hi ++ skipn 127 (Log.Data ev)).

(* ================================================================== *)
(** ** Sample inputs *)

Module Sample.

(** The payload of a deposit event: the six fixed fields, then the data. *)
Definition payload (value mint gas isCreation dataOffset dataLen : Z)
  (tail : bytes) : bytes :=
  be_encode 32 value ++ be_encode 32 mint ++ be_encode 32 gas
    ++ be_encode 32 isCreation ++ be_encode 32 dataOffset
    ++ be_encode 32 dataLen ++ tail.

Definition alice : common.Address := repeat x0a 20.
Definition bob : common.Address := repeat x0b 20.
Definition topic_of (a : common.Address) : common.Hash := repeat x00 12 ++ a.

Definition topics : list common.Hash :=
  [DepositEventABIHash; topic_of alice; topic_of bob].

(** A deposit of value 5, mint 7, gas 21000 to [bob] with three bytes of
    data, padded to 32 bytes; the offset field holds 160. *)
Definition deposit_log : Log.t :=
  {| Log.Address := DepositContractAddr;
     Log.Topics := topics;
     Log.Data := payload 5 7 21000 0 160 3
                   ([x01; x02; x03] ++ repeat x00 29);
     Log.TxIndex := 4; Log.Index := 9 |}.

(** A contract creation without mint. *)
Definition creation_log : Log.t :=
  {| Log.Address := DepositContractAddr;
     Log.Topics := topics;
     Log.Data := payload 1 0 50000 1 160 2 ([xaa; xbb] ++ repeat x00 30);
     Log.TxIndex := 6; Log.Index := 17 |}.

(** The same deposit as [deposit_log] with the offset field holding 128. *)
Definition offset128_log : Log.t :=
  {| Log.Address := DepositContractAddr;
     Log.Topics := topics;
     Log.Data := payload 5 7 21000 0 128 3
                   ([x01; x02; x03] ++ repeat x00 29);
     Log.TxIndex := 5; Log.Index := 12 |}.

(** A log of another contract. *)
Definition foreign_log : Log.t :=
  {| Log.Address := bob;
     Log.Topics := topics;
     Log.Data := Log.Data deposit_log;
     Log.TxIndex := 2; Log.Index := 3 |}.

Definition receipts : list Receipt.t :=
  [ {| Receipt.Status := 1; Receipt.Logs := [foreign_log; deposit_log] |};
    {| Receipt.Status := 0; Receipt.Logs := [deposit_log] |};
    {| Receipt.Status := 1; Receipt.Logs := [creation_log; foreign_log] |} ].

Definition bad_receipts : list Receipt.t :=
  [ {| Receipt.Status := 1; Receipt.Logs := [deposit_log] |};
    {| Receipt.Status := 1; Receipt.Logs := [offset128_log; creation_log] |} ].

(** A successful receipt without deposit log, and a failed one with a
    well-formed deposit log. *)
Definition quiet_receipts : list Receipt.t :=
  [ {| Receipt.Status := 1; Receipt.Logs := [foreign_log] |};
    {| Receipt.Status := 0; Receipt.Logs := [deposit_log] |} ].

(** A block header as the derivation reads it. *)
Record Header : Type := {
  number : Z; time : Z;
  hash : common.Hash;
  baseFee : option Z;
  receiptHash : common.Hash;
  mixDigest : common.Hash
}.

#[global] Instance Header_L1Info : L1Info Header :=
  {| NumberU64 := number; Time := time; Hash := hash; BaseFee := baseFee |}.
#[global] Instance Header_ReceiptHash : ReceiptHash Header :=
  {| GetReceiptHash := receiptHash |}.
#[global] Instance Header_BlockInput : BlockInput Header :=
  {| MixDigest := mixDigest |}.

(** Stand-ins for the two library functions, to run the derivation on
    concrete inputs: a digest of the receipts' statuses and payloads, and
    an encoding that prefixes the data with a type byte. *)
Definition digest (receipts : list Receipt.t) : common.Hash :=
  crypto.Keccak256Hash
    (flat_map (fun r => z2b (Receipt.Status r)
                          :: flat_map Log.Data (Receipt.Logs r)) receipts).

Definition encode (tx : DepositTx.t) : outcome (bytes * option error) :=
  Ret (x7e :: PutUint64 (DepositTx.TransactionIndex tx) ++ DepositTx.Data tx,
       None).

(** An encoder that panics whenever it is called. *)
Definition encode_panics (tx : DepositTx.t)
  : outcome (bytes * option error) := Panic LibraryPanic.

Definition header (fee : option Z) (rs : list Receipt.t) : Header :=
  {| number := 100; time := 1000;
     hash := repeat xaa 32;
     baseFee := fee;
     receiptHash := digest rs;
     mixDigest := repeat x11 32 |}.

(** A block after the base fee was introduced, and one before it. *)
Definition london_block : Header := header (Some 7) receipts.
Definition pre_london_block : Header := header None receipts.

(** An encoder that returns an error on a deposit without recipient. *)
Definition encode_calls_only (tx : DepositTx.t)
  : outcome (bytes * option error) :=
  match DepositTx.To tx with
  | Some _ => encode tx
  | None => Ret ([], Some (ErrLibrary "no recipient"))
  end.

End Sample.

(* ================================================================== *)
(** ** Proof automation *)

(** Splits the conjunctions of a goal, and nothing else. *)
Ltac conjs := repeat match goal with |- _ /\ _ => split end.

(* ================================================================== *)
(** * Properties *)

(** ** Bytes and big-endian integers *)

Lemma b2z_range (b : byte) : 0 <= b2z b < 256.
Proof.
  unfold b2z. pose proof (Byte.to_N_bounded b). lia.
Qed.

Lemma z2b_b2z (b : byte) : z2b (b2z b) = b.
Proof.
  unfold z2b. rewrite Z.mod_small by apply b2z_range.
  unfold b2z. rewrite N2Z.id, Byte.of_to_N. reflexivity.
Qed.

Lemma b2z_z2b (z : Z) : b2z (z2b z) = z mod 256.
Proof.
  unfold z2b, b2z.
  destruct (Byte.of_N (Z.to_N (z mod 256))) as [b|] eqn:E.
  - apply Byte.to_of_N in E. rewrite E, Z2N.id; [reflexivity|].
    apply Z.mod_pos_bound; lia.
  - apply Byte.of_N_None_iff in E.
    pose proof (Z.mod_pos_bound z 256 ltac:(lia)). lia.
Qed.

Lemma bytes_eqb_eq (a b : bytes) : bytes_eqb a b = true <-> a = b.
Proof.
  revert b; induction a as [|x a IH]; intros [|y b]; simpl;
    try (split; [discriminate | congruence]); try tauto.
  rewrite andb_true_iff, IH. split.
  - intros [Hxy ->]. apply Byte.byte_dec_bl in Hxy. congruence.
  - intros [= -> ->]. split; [apply Byte.byte_dec_lb|]; reflexivity.
Qed.

Lemma bytes_eqb_refl (a : bytes) : bytes_eqb a a = true.
Proof. apply bytes_eqb_eq; reflexivity. Qed.

Lemma bytes_eqb_neq (a b : bytes) : bytes_eqb a b = false <-> a <> b.
Proof.
  rewrite <- bytes_eqb_eq. destruct (bytes_eqb a b); split; congruence.
Qed.

Lemma byte_eqb_eq (x y : byte) : Byte.eqb x y = true <-> x = y.
Proof.
  split; [apply Byte.byte_dec_bl | apply Byte.byte_dec_lb].
Qed.

Lemma SetBytes_from (bs : bytes) (acc : Z) :
  fold_left (fun a b => a * 256 + b2z b) bs acc
  = acc * 256 ^ Z.of_nat (List.length bs) + SetBytes bs.
Proof.
  unfold SetBytes. revert acc.
  induction bs as [|b bs IH]; intros acc; cbn [fold_left].
  - simpl. lia.
  - rewrite (IH (acc * 256 + b2z b)), (IH (0 * 256 + b2z b)).
    change (List.length (b :: bs)) with (S (List.length bs)).
    rewrite Nat2Z.inj_succ, Z.pow_succ_r by lia. ring.
Qed.

Lemma SetBytes_cons (b : byte) (bs : bytes) :
  SetBytes (b :: bs) = b2z b * 256 ^ Z.of_nat (List.length bs) + SetBytes bs.
Proof.
  unfold SetBytes at 1. cbn [fold_left]. rewrite SetBytes_from. ring.
Qed.

Lemma SetBytes_app (xs ys : bytes) :
  SetBytes (xs ++ ys) = SetBytes xs * 256 ^ Z.of_nat (List.length ys) + SetBytes ys.
Proof.
  unfold SetBytes at 1. rewrite fold_left_app.
  fold (SetBytes xs). apply SetBytes_from.
Qed.

Lemma SetBytes_range (bs : bytes) :
  0 <= SetBytes bs < 256 ^ Z.of_nat (List.length bs).
Proof.
  induction bs as [|b bs IH].
  - cbn. lia.
  - rewrite SetBytes_cons.
    change (List.length (b :: bs)) with (S (List.length bs)).
    rewrite Nat2Z.inj_succ, Z.pow_succ_r by lia.
    pose proof (b2z_range b). nia.
Qed.

Lemma length_be_encode (n : nat) (z : Z) : List.length (be_encode n z) = n.
Proof.
  revert z; induction n as [|n IH]; intros z; simpl; [reflexivity|].
  rewrite length_app, IH. simpl. lia.
Qed.


Lemma SetBytes_be_encode (n : nat) (z : Z) :
  SetBytes (be_encode n z) = z mod 256 ^ Z.of_nat n.
Proof.
  revert z; induction n as [|n IH]; intros z.
  - cbn. rewrite Z.mod_1_r. reflexivity.
  - simpl be_encode. rewrite SetBytes_app, IH.
    change (SetBytes [z2b z]) with (0 * 256 + b2z (z2b z)).
    rewrite b2z_z2b.
    change (256 ^ Z.of_nat (List.length [z2b z])) with 256.
    rewrite Nat2Z.inj_succ, Z.pow_succ_r by lia.
    rewrite Z.rem_mul_r by lia. lia.
Qed.

Lemma SetBytes_be_encode_small (n : nat) (z : Z) :
  0 <= z < 256 ^ Z.of_nat n -> SetBytes (be_encode n z) = z.
Proof.
  intros Hz. rewrite SetBytes_be_encode. apply Z.mod_small, Hz.
Qed.

Lemma PutUint64_be_encode (v : Z) : PutUint64 v = be_encode 8 v.
Proof.
  unfold PutUint64. cbn [map be_encode app].
  rewrite !Z.shiftr_div_pow2 by lia.
  rewrite !Z.div_div by lia.
  rewrite Z.div_1_r. reflexivity.
Qed.

Lemma length_PutUint64 (v : Z) : List.length (PutUint64 v) = 8%nat.
Proof. reflexivity. Qed.

Lemma SetBytes_PutUint64 (v : Z) : 0 <= v < two64 -> SetBytes (PutUint64 v) = v.
Proof.
  intros Hv. rewrite PutUint64_be_encode.
  apply SetBytes_be_encode_small. exact Hv.
Qed.

(** A byte slice decodes to zero exactly when all its bytes are zero. *)
Lemma SetBytes_zero_iff (bs : bytes) :
  SetBytes bs = 0 <-> Forall (eq x00) bs.
Proof.
  induction bs as [|b bs IH].
  - split; [constructor | reflexivity].
  - rewrite SetBytes_cons.
    pose proof (b2z_range b) as Hb. pose proof (SetBytes_range bs) as Hr.
    assert (Hp : 0 < 256 ^ Z.of_nat (List.length bs)) by (apply Z.pow_pos_nonneg; lia).
    split.
    + intros H0.
      assert (b2z b = 0) as Hb0 by nia.
      assert (SetBytes bs = 0) as Hs0 by nia.
      constructor; [|apply IH, Hs0].
      rewrite <- (z2b_b2z b), Hb0. reflexivity.
    + intros HF. inversion HF as [|? ? Hx Hrest]; subst.
      apply IH in Hrest. rewrite Hrest. reflexivity.
Qed.

(** ** Keccak-256 against published digests *)

Example keccak256_empty :
  Keccak.keccak256 []
  = common.FromHex
      "c5d2460186f7233c927e7db2dcc703c0e500b653ca82273b7bfad8045d85a470".
Proof. vm_compute. reflexivity. Qed.

Example keccak256_Transfer_topic :
  Keccak.keccak256 (list_byte_of_string "Transfer(address,address,uint256)")
  = common.FromHex
      "0xddf252ad1be2c89b69c2b068fc378daa952ba7f163c4a11628f55a4df523b3ef".
Proof. vm_compute. reflexivity. Qed.

Example keccak256_transfer_selector :
  firstn 4 (Keccak.keccak256 (list_byte_of_string "transfer(address,uint256)"))
  = [xa9; x05; x9c; xbb].
Proof. vm_compute. reflexivity. Qed.

Example sha3_256_abc :
  Keccak.sha3_256 (list_byte_of_string "abc")
  = common.FromHex
      "3a985da74fe225b2045c172d6bd390bd855f086e3e9d525b46bfe24511431532".
Proof. vm_compute. reflexivity. Qed.

(** A message longer than one block of the sponge. *)
Example sha3_256_200_a :
  Keccak.sha3_256 (repeat x61 200)
  = common.FromHex
      "cce34485baf2bf2aca99b94833892a4f52896d3d153f7b840cc4f9fe695f1387".
Proof. vm_compute. reflexivity. Qed.

(** ** The two addresses *)

Example DepositContractAddr_value :
  DepositContractAddr
  = [xde; xad; xde; xad; xde; xad; xde; xad; xde; xad;
     xde; xad; xde; xad; xde; xad; xde; xad; x00; x01].
Proof. vm_compute. reflexivity. Qed.

Example L1InfoPredeployAddr_value : L1InfoPredeployAddr = repeat x42 20.
Proof. vm_compute. reflexivity. Qed.

(** ** Slices *)

Lemma length_slice {A : Type} (s : list A) (lo hi : Z) :
  0 <= lo <= hi -> hi <= Z.of_nat (List.length s) ->
  Z.of_nat (List.length (slice s lo hi)) = hi - lo.
Proof.
  intros H1 H2. unfold slice.
  rewrite length_firstn, length_skipn. lia.
Qed.

Lemma slice_firstn_skipn {A : Type} (s : list A) (lo n : nat) :
  slice s (Z.of_nat lo) (Z.of_nat lo + Z.of_nat n) = firstn n (skipn lo s).
Proof.
  unfold slice. rewrite Nat2Z.id.
  replace (Z.of_nat lo + Z.of_nat n - Z.of_nat lo) with (Z.of_nat n) by lia.
  rewrite Nat2Z.id. reflexivity.
Qed.

(** ** The decoder, with the offsets computed *)

Lemma UnmarshalLogEvent_eq (blockNum txIndex : Z) (ev : Log.t) :
  UnmarshalLogEvent blockNum txIndex ev =
  let d := Log.Data ev in
  let ts := Log.Topics ev in
  if negb (List.length ts =? 3)%nat then Err ErrTopicCount
  else if negb (bytes_eqb (nth 0 ts []) DepositEventABIHash) then
    Err (ErrEventSelector (nth 0 ts []) DepositEventABIHash)
  else if Z.of_nat (List.length d) <? 192 then
    Err (ErrDataTooSmall (Z.of_nat (List.length d)) d)
  else if negb (IsUint64 (SetBytes (slice d 64 96))) then
    Err (ErrBadGas (slice d 64 96))
  else if SetBytes256 (slice d 128 160) =? 128 then
    Err (ErrDataOffset (Uint64 (SetBytes256 (slice d 128 160))))
  else if negb (IsUint64 (SetBytes256 (slice d 160 192))) then
    Err (ErrDataTooLarge (SetBytes256 (slice d 160 192)))
  else if sub64 (Z.of_nat (List.length d)) 192
          <? Uint64 (SetBytes256 (slice d 160 192)) then
    Err (ErrDataLenTooLong (Uint64 (SetBytes256 (slice d 160 192)))
           (sub64 (Z.of_nat (List.length d)) 192))
  else
    Ok {| DepositTx.BlockHeight := blockNum;
          DepositTx.TransactionIndex := txIndex;
          DepositTx.From :=
            common.BytesToAddress (skipn 12 (nth 1 ts []));
          DepositTx.To :=
            if Byte.eqb (index d 127) x00
            then Some (common.BytesToAddress (skipn 12 (nth 2 ts [])))
            else None;
          DepositTx.Mint :=
            if SetBytes (slice d 32 64) =? 0 then None
            else Some (SetBytes (slice d 32 64));
          DepositTx.Value := SetBytes (slice d 0 32);
          DepositTx.Gas := Uint64 (SetBytes (slice d 64 96));
          DepositTx.Data :=
            slice d 192 (add64 192 (Uint64 (SetBytes256 (slice d 160 192)))) |}.
Proof. reflexivity. Qed.

Example sample_deposit_decodes :
  UnmarshalLogEvent 100 1 Sample.deposit_log
  = Ok {| DepositTx.BlockHeight := 100;
          DepositTx.TransactionIndex := 1;
          DepositTx.From := Sample.alice;
          DepositTx.To := Some Sample.bob;
          DepositTx.Mint := Some 7;
          DepositTx.Value := 5;
          DepositTx.Gas := 21000;
          DepositTx.Data := [x01; x02; x03] |}.
Proof. vm_compute. reflexivity. Qed.

Lemma SetBytes256_32 (bs : bytes) :
  List.length bs = 32%nat -> SetBytes256 bs = SetBytes bs.
Proof.
  intros H. unfold SetBytes256. rewrite H. reflexivity.
Qed.

Lemma length_word (d : bytes) (k : nat) :
  (32 * k + 32 <= List.length d)%nat ->
  List.length (firstn 32 (skipn (32 * k) d)) = 32%nat.
Proof.
  intros H. rewrite length_firstn, length_skipn. lia.
Qed.

Lemma field_range (d : bytes) (k : nat) : 0 <= field d k < 2 ^ 256.
Proof.
  unfold field.
  pose proof (SetBytes_range (firstn 32 (skipn (32 * k) d))) as H.
  assert (Hl : (List.length (firstn 32 (skipn (32 * k) d)) <= 32)%nat)
    by (rewrite length_firstn; lia).
  assert (256 ^ Z.of_nat (List.length (firstn 32 (skipn (32 * k) d)))
          <= 256 ^ 32) by (apply Z.pow_le_mono_r; lia).
  change (2 ^ 256) with (256 ^ 32). lia.
Qed.

Lemma IsUint64_field (d : bytes) (k : nat) :
  IsUint64 (field d k) = (field d k <? two64).
Proof.
  unfold IsUint64. pose proof (field_range d k).
  destruct (0 <=? field d k) eqn:E; [reflexivity|].
  apply Z.leb_gt in E. lia.
Qed.

(** The fields the decoder reads are the specification's [field]s once the
    payload holds the six of them. *)
Lemma decoder_fields (d : bytes) :
  192 <= Z.of_nat (List.length d) ->
  SetBytes (slice d 0 32) = field d 0
  /\ SetBytes (slice d 32 64) = field d 1
  /\ SetBytes (slice d 64 96) = field d 2
  /\ SetBytes256 (slice d 128 160) = field d 4
  /\ SetBytes256 (slice d 160 192) = field d 5.
Proof.
  intros Hlen. repeat split; try reflexivity.
  - change (slice d 128 160) with (firstn 32 (skipn (32 * 4) d)).
    apply SetBytes256_32, length_word. lia.
  - change (slice d 160 192) with (firstn 32 (skipn (32 * 5) d)).
    apply SetBytes256_32, length_word. lia.
Qed.

Lemma sub64_remaining (d : bytes) :
  192 <= Z.of_nat (List.length d) -> fits_int (List.length d) ->
  sub64 (Z.of_nat (List.length d)) 192 = remaining d.
Proof.
  unfold sub64, remaining, fits_int, MaxInt, two64. intros H1 H2.
  apply Z.mod_small. lia.
Qed.

(** Go checks the bounds of every slice expression and index; in the decoder
    they hold on every path that reaches them, so no such check fires. *)
Lemma UnmarshalLogEvent_slices_in_bounds (d : bytes) (dataLen : Z) :
  192 <= Z.of_nat (List.length d) -> fits_int (List.length d) ->
  0 <= dataLen < two64 ->
  dataLen <= sub64 (Z.of_nat (List.length d)) 192 ->
  (forall lo hi, In (lo, hi) [(0, 32); (32, 64); (64, 96); (128, 160); (160, 192)]
                 -> 0 <= lo <= hi /\ hi <= Z.of_nat (List.length d))
  /\ 0 <= 127 < Z.of_nat (List.length d)
  /\ 0 <= 192 <= add64 192 (Uint64 dataLen)
  /\ add64 192 (Uint64 dataLen) <= Z.of_nat (List.length d).
Proof.
  intros H1 H2 H3 H4. rewrite sub64_remaining in H4 by assumption.
  unfold remaining in H4. unfold fits_int, MaxInt in H2.
  assert (Hadd : add64 192 (Uint64 dataLen) = 192 + dataLen).
  { unfold add64, Uint64. rewrite (Z.mod_small dataLen) by lia.
    apply Z.mod_small. unfold two64 in *. lia. }
  rewrite Hadd. repeat split; try lia.
  all: cbn [In] in H; intuition (try congruence);
    match goal with E : (_, _) = (_, _) |- _ => inversion E; subst; lia end.
Qed.

(** ** C1: when the decoder fails *)

(** What the decoder returns on each path, in the order of its checks and in
    terms of the specification's fields, for a payload of a length a Go
    slice can have. *)
Lemma UnmarshalLogEvent_paths (blockNum txIndex : Z) (ev : Log.t) :
  fits_int (List.length (Log.Data ev)) ->
  let d := Log.Data ev in
  let ts := Log.Topics ev in
  let r := UnmarshalLogEvent blockNum txIndex ev in
  (List.length ts <> 3%nat -> r = Err ErrTopicCount)
  /\ (List.length ts = 3%nat ->
      nth 0 ts [] <> DepositEventABIHash ->
      r = Err (ErrEventSelector (nth 0 ts []) DepositEventABIHash))
  /\ (List.length ts = 3%nat -> nth 0 ts [] = DepositEventABIHash ->
      Z.of_nat (List.length d) < 192 ->
      r = Err (ErrDataTooSmall (Z.of_nat (List.length d)) d))
  /\ (List.length ts = 3%nat -> nth 0 ts [] = DepositEventABIHash ->
      192 <= Z.of_nat (List.length d) ->
      two64 <= field d 2 ->
      r = Err (ErrBadGas (slice d 64 96)))
  /\ (List.length ts = 3%nat -> nth 0 ts [] = DepositEventABIHash ->
      192 <= Z.of_nat (List.length d) -> field d 2 < two64 ->
      field d 4 = 128 ->
      r = Err (ErrDataOffset 128))
  /\ (List.length ts = 3%nat -> nth 0 ts [] = DepositEventABIHash ->
      192 <= Z.of_nat (List.length d) -> field d 2 < two64 ->
      field d 4 <> 128 ->
      two64 <= field d 5 ->
      r = Err (ErrDataTooLarge (field d 5)))
  /\ (List.length ts = 3%nat -> nth 0 ts [] = DepositEventABIHash ->
      192 <= Z.of_nat (List.length d) -> field d 2 < two64 ->
      field d 4 <> 128 -> field d 5 < two64 ->
      remaining d < field d 5 ->
      r = Err (ErrDataLenTooLong (field d 5) (remaining d)))
  /\ (List.length ts = 3%nat -> nth 0 ts [] = DepositEventABIHash ->
      192 <= Z.of_nat (List.length d) -> field d 2 < two64 ->
      field d 4 <> 128 -> field d 5 < two64 ->
      field d 5 <= remaining d ->
      r = Ok {| DepositTx.BlockHeight := blockNum;
                DepositTx.TransactionIndex := txIndex;
                DepositTx.From :=
                  common.BytesToAddress (skipn 12 (nth 1 ts []));
                DepositTx.To :=
                  if Byte.eqb (index d 127) x00
                  then Some (common.BytesToAddress (skipn 12 (nth 2 ts [])))
                  else None;
                DepositTx.Mint :=
                  if field d 1 =? 0 then None else Some (field d 1);
                DepositTx.Value := field d 0;
                DepositTx.Gas := field d 2;
                DepositTx.Data :=
                  firstn (Z.to_nat (field d 5)) (skipn 192 d) |}).
Proof.
  intros Hfit. cbv zeta. rewrite UnmarshalLogEvent_eq. cbv zeta.
  set (d := Log.Data ev) in *. set (ts := Log.Topics ev) in *.
  destruct (Nat.eqb_spec (List.length ts) 3) as [Hts|Hts]; cbn [negb];
    [|conjs; intros; first [contradiction | reflexivity]].
  destruct (bytes_eqb (nth 0 ts []) DepositEventABIHash) eqn:Hsel; cbn [negb];
    [apply bytes_eqb_eq in Hsel
    |apply bytes_eqb_neq in Hsel;
     conjs; intros; first [contradiction | reflexivity]].
  destruct (Z.ltb_spec (Z.of_nat (List.length d)) 192) as [Hlen|Hlen];
    [conjs; intros; first [contradiction | lia | reflexivity]|].
  destruct (decoder_fields d Hlen) as (F0 & F1 & F2 & F4 & F5).
  rewrite F0, F1, F2, F4, F5, !IsUint64_field, (sub64_remaining d Hlen Hfit).
  destruct (Z.ltb_spec (field d 2) two64) as [Hgas|Hgas]; cbn [negb];
    [|conjs; intros; first [contradiction | lia | reflexivity]].
  destruct (Z.eqb_spec (field d 4) 128) as [Hoff|Hoff];
    [rewrite Hoff;
     conjs; intros; first [contradiction | lia | reflexivity]|].
  destruct (Z.ltb_spec (field d 5) two64) as [Hdl|Hdl]; cbn [negb];
    [|conjs; intros; first [contradiction | lia | reflexivity]].
  pose proof (field_range d 5) as R5. pose proof (field_range d 2) as R2.
  unfold Uint64.
  rewrite (Z.mod_small (field d 5)), (Z.mod_small (field d 2))
    by (unfold two64 in *; lia).
  destruct (Z.ltb_spec (remaining d) (field d 5)) as [Hrem|Hrem];
    [conjs; intros; first [contradiction | lia | reflexivity]|].
  conjs; intros; try contradiction; try lia.
  do 2 f_equal.
  unfold slice, add64, remaining, fits_int, MaxInt, two64 in *.
  rewrite Z.mod_small by lia.
  replace (192 + field d 5 - 192) with (field d 5) by lia.
  reflexivity.
Qed.

(** C1. [UnmarshalLogEvent] fails, with a [MalformedEvent] error, exactly
    when the log is rejected by one of the listed conditions (topic count,
    topic 0, payload shorter than 192 bytes, gas beyond 64 bits, data offset
    equal to 128, data length beyond 64 bits or beyond the remaining bytes),
    and succeeds otherwise. *)
Theorem UnmarshalLogEvent_fails_iff_rejected
  (blockNum txIndex : Z) (ev : Log.t) :
  fits_int (List.length (Log.Data ev)) ->
  ((exists e, UnmarshalLogEvent blockNum txIndex ev = Err e /\ MalformedEvent e)
   <-> rejected ev)
  /\ ((exists dep, UnmarshalLogEvent blockNum txIndex ev = Ok dep)
      <-> ~ rejected ev).
Proof.
  intros Hfit.
  destruct (UnmarshalLogEvent_paths blockNum txIndex ev Hfit)
    as (P1 & P2 & P3 & P4 & P5 & P6 & P7 & P8).
  unfold rejected.
  set (d := Log.Data ev) in *. set (ts := Log.Topics ev) in *.
  assert (Hfail : forall e,
             UnmarshalLogEvent blockNum txIndex ev = Err e -> MalformedEvent e ->
             forall R : Prop, R ->
             ((exists e, UnmarshalLogEvent blockNum txIndex ev = Err e
                         /\ MalformedEvent e) <-> R)
             /\ ((exists dep, UnmarshalLogEvent blockNum txIndex ev = Ok dep)
                 <-> ~ R)).
  { intros e He Hm R HR. rewrite He. split; split.
    - intros _. exact HR.
    - intros _. exists e. split; [reflexivity | exact Hm].
    - intros (dep & Hd). discriminate.
    - intros Hn. contradiction. }
  destruct (Nat.eq_dec (List.length ts) 3) as [Hts|Hts];
    [|apply (Hfail _ (P1 Hts) I); left; exact Hts].
  destruct (bytes_eqb (nth 0 ts []) DepositEventABIHash) eqn:Hsel;
    [apply bytes_eqb_eq in Hsel
    |apply bytes_eqb_neq in Hsel; apply (Hfail _ (P2 Hts Hsel) I); right; left; exact Hsel].
  destruct (Z.lt_ge_cases (Z.of_nat (List.length d)) 192) as [Hlen|Hlen];
    [apply (Hfail _ (P3 Hts Hsel Hlen) I); do 2 right; left; exact Hlen|].
  destruct (Z.lt_ge_cases (field d 2) two64) as [Hgas|Hgas];
    [|apply (Hfail _ (P4 Hts Hsel Hlen Hgas) I); do 3 right; left; exact Hgas].
  destruct (Z.eq_dec (field d 4) 128) as [Hoff|Hoff];
    [apply (Hfail _ (P5 Hts Hsel Hlen Hgas Hoff) I); do 4 right; left; exact Hoff|].
  destruct (Z.lt_ge_cases (field d 5) two64) as [Hdl|Hdl];
    [|apply (Hfail _ (P6 Hts Hsel Hlen Hgas Hoff Hdl) I); do 5 right; left; exact Hdl].
  destruct (Z.lt_ge_cases (remaining d) (field d 5)) as [Hrem|Hrem];
    [apply (Hfail _ (P7 Hts Hsel Hlen Hgas Hoff Hdl Hrem) I); do 6 right; exact Hrem|].
  rewrite (P8 Hts Hsel Hlen Hgas Hoff Hdl Hrem).
  assert (Hnot : ~ (List.length ts <> 3%nat
                    \/ nth 0 ts [] <> DepositEventABIHash
                    \/ Z.of_nat (List.length d) < 192
                    \/ two64 <= field d 2
                    \/ field d 4 = 128
                    \/ two64 <= field d 5
                    \/ remaining d < field d 5))
    by (intros [H|[H|[H|[H|[H|[H|H]]]]]]; first [contradiction | lia]).
  split; split.
  - intros (e & He & _). discriminate.
  - intros Hr. contradiction.
  - intros _. exact Hnot.
  - intros _. eexists. reflexivity.
Qed.

Lemma UnmarshalLogEvent_fails_iff_rejected_witness :
  rejected Sample.offset128_log /\ ~ rejected Sample.deposit_log.
Proof.
  split.
  - refine (proj1 (proj1 (UnmarshalLogEvent_fails_iff_rejected
                            100 1 Sample.offset128_log _)) _).
    + unfold fits_int, MaxInt. vm_compute. discriminate.
    + exists (ErrDataOffset 128). split; [vm_compute; reflexivity | exact I].
  - refine (proj1 (proj2 (UnmarshalLogEvent_fails_iff_rejected
                            100 1 Sample.deposit_log _)) _).
    + unfold fits_int, MaxInt. vm_compute. discriminate.
    + eexists. vm_compute. reflexivity.
Defined.

(** ** Successful decodes *)

(** The decoder succeeds exactly on the logs that pass its checks, and then
    returns the record below.  No bound on the payload length is assumed: the
    remaining length is the [uint64] difference the code computes. *)
Lemma UnmarshalLogEvent_Ok_iff (blockNum txIndex : Z) (ev : Log.t)
  (dep : DepositTx.t) :
  UnmarshalLogEvent blockNum txIndex ev = Ok dep
  <-> (List.length (Log.Topics ev) = 3%nat
       /\ nth 0 (Log.Topics ev) [] = DepositEventABIHash
       /\ 192 <= Z.of_nat (List.length (Log.Data ev))
       /\ field (Log.Data ev) 2 < two64
       /\ field (Log.Data ev) 4 <> 128
       /\ field (Log.Data ev) 5 < two64
       /\ field (Log.Data ev) 5
          <= sub64 (Z.of_nat (List.length (Log.Data ev))) 192
       /\ dep = {| DepositTx.BlockHeight := blockNum;
                   DepositTx.TransactionIndex := txIndex;
                   DepositTx.From :=
                     common.BytesToAddress (skipn 12 (nth 1 (Log.Topics ev) []));
                   DepositTx.To :=
                     if Byte.eqb (index (Log.Data ev) 127) x00
                     then Some (common.BytesToAddress
                                  (skipn 12 (nth 2 (Log.Topics ev) [])))
                     else None;
                   DepositTx.Mint :=
                     if field (Log.Data ev) 1 =? 0 then None
                     else Some (field (Log.Data ev) 1);
                   DepositTx.Value := field (Log.Data ev) 0;
                   DepositTx.Gas := field (Log.Data ev) 2;
                   DepositTx.Data :=
                     slice (Log.Data ev) 192
                           (add64 192 (field (Log.Data ev) 5)) |}).
Proof.
  rewrite UnmarshalLogEvent_eq. cbv zeta.
  set (d := Log.Data ev) in *. set (ts := Log.Topics ev) in *.
  destruct (Nat.eqb_spec (List.length ts) 3) as [Hts|Hts]; cbn [negb];
    [|split; [discriminate | tauto]].
  destruct (bytes_eqb (nth 0 ts []) DepositEventABIHash) eqn:Hsel; cbn [negb];
    [apply bytes_eqb_eq in Hsel
    |apply bytes_eqb_neq in Hsel; split; [discriminate | tauto]].
  destruct (Z.ltb_spec (Z.of_nat (List.length d)) 192) as [Hlen|Hlen];
    [split; [discriminate | lia]|].
  destruct (decoder_fields d Hlen) as (F0 & F1 & F2 & F4 & F5).
  rewrite F0, F1, F2, F4, F5, !IsUint64_field.
  pose proof (field_range d 5) as R5. pose proof (field_range d 2) as R2.
  destruct (Z.ltb_spec (field d 2) two64) as [Hgas|Hgas]; cbn [negb];
    [|split; [discriminate | lia]].
  destruct (Z.eqb_spec (field d 4) 128) as [Hoff|Hoff];
    [split; [discriminate | tauto]|].
  destruct (Z.ltb_spec (field d 5) two64) as [Hdl|Hdl]; cbn [negb];
    [|split; [discriminate | lia]].
  unfold Uint64.
  rewrite (Z.mod_small (field d 5)), (Z.mod_small (field d 2))
    by (unfold two64 in *; lia).
  destruct (Z.ltb_spec (sub64 (Z.of_nat (List.length d)) 192) (field d 5))
    as [Hrem|Hrem]; [split; [discriminate | lia]|].
  split.
  - intros [= <-]. repeat split; assumption.
  - intros (_ & _ & _ & _ & _ & _ & _ & ->). reflexivity.
Qed.

Lemma creation_flag_index (d : bytes) :
  192 <= Z.of_nat (List.length d) ->
  last (firstn 32 (skipn (32 * 3) d)) x00 = index d 127.
Proof.
  intros Hlen. unfold index.
  rewrite <- (firstn_skipn 96 d) at 2.
  assert (H96 : List.length (firstn 96 d) = 96%nat)
    by (rewrite length_firstn; lia).
  rewrite app_nth2 by (rewrite H96; cbn; lia).
  rewrite H96. change (Z.to_nat 127 - 96)%nat with 31%nat.
  change (32 * 3)%nat with 96%nat.
  set (r := skipn 96 d).
  assert (Hr : (32 <= List.length r)%nat)
    by (unfold r; rewrite length_skipn; lia).
  clearbody r.
  do 32 (destruct r as [|? r]; [cbn in Hr; lia|]).
  reflexivity.
Qed.

(** C6. On a successful decode, [Mint] is absent exactly when the encoded
    mint amount (the second field) is zero, and [To] is absent exactly when
    the last byte of the creation-flag field is not zero; when that byte is
    zero, [To] is the address decoded from topic 2. *)
Theorem UnmarshalLogEvent_mint_and_to
  (blockNum txIndex : Z) (ev : Log.t) (dep : DepositTx.t) :
  UnmarshalLogEvent blockNum txIndex ev = Ok dep ->
  (DepositTx.Mint dep = None <-> field (Log.Data ev) 1 = 0)
  /\ (DepositTx.To dep = None <-> creation_flag (Log.Data ev) <> x00)
  /\ (creation_flag (Log.Data ev) = x00 ->
      DepositTx.To dep
      = Some (common.BytesToAddress (skipn 12 (nth 2 (Log.Topics ev) [])))).
Proof.
  intros H. apply UnmarshalLogEvent_Ok_iff in H.
  destruct H as (_ & _ & Hlen & _ & _ & _ & _ & ->).
  unfold creation_flag. rewrite (creation_flag_index _ Hlen).
  cbn [DepositTx.Mint DepositTx.To].
  destruct (Z.eqb_spec (field (Log.Data ev) 1) 0) as [Hm|Hm];
    destruct (Byte.eqb (index (Log.Data ev) 127) x00) eqn:Hc;
    [apply byte_eqb_eq in Hc | apply Byte.eqb_false in Hc
    |apply byte_eqb_eq in Hc | apply Byte.eqb_false in Hc].
  all: repeat split; intros; try congruence; try tauto.
Qed.

Lemma UnmarshalLogEvent_mint_and_to_witness :
  UnmarshalLogEvent 100 1 Sample.creation_log
  = Ok {| DepositTx.BlockHeight := 100;
          DepositTx.TransactionIndex := 1;
          DepositTx.From := Sample.alice;
          DepositTx.To := None;
          DepositTx.Mint := None;
          DepositTx.Value := 1;
          DepositTx.Gas := 50000;
          DepositTx.Data := [xaa; xbb] |}
  /\ field (Log.Data Sample.creation_log) 1 = 0
  /\ creation_flag (Log.Data Sample.creation_log) <> x00.
Proof.
  assert (H : UnmarshalLogEvent 100 1 Sample.creation_log
              = Ok {| DepositTx.BlockHeight := 100;
                      DepositTx.TransactionIndex := 1;
                      DepositTx.From := Sample.alice;
                      DepositTx.To := None;
                      DepositTx.Mint := None;
                      DepositTx.Value := 1;
                      DepositTx.Gas := 50000;
                      DepositTx.Data := [xaa; xbb] |})
    by (vm_compute; reflexivity).
  split; [exact H|].
  destruct (UnmarshalLogEvent_mint_and_to _ _ _ _ H) as (Hm & Ht & _).
  split; [apply Hm | apply Ht]; reflexivity.
Defined.

(** C7. On a successful decode, [Data] is the declared number of bytes of
    the payload from byte 192 on; the payload is the six fields, then [Data],
    then padding that is dropped. *)
Theorem UnmarshalLogEvent_data
  (blockNum txIndex : Z) (ev : Log.t) (dep : DepositTx.t) :
  fits_int (List.length (Log.Data ev)) ->
  UnmarshalLogEvent blockNum txIndex ev = Ok dep ->
  let dataLen := Z.to_nat (field (Log.Data ev) 5) in
  DepositTx.Data dep = firstn dataLen (skipn 192 (Log.Data ev))
  /\ Z.of_nat (List.length (DepositTx.Data dep)) = field (Log.Data ev) 5
  /\ Log.Data ev
     = firstn 192 (Log.Data ev) ++ DepositTx.Data dep
         ++ skipn (192 + dataLen) (Log.Data ev).
Proof.
  intros Hfit H dataLen. apply UnmarshalLogEvent_Ok_iff in H.
  destruct H as (_ & _ & Hlen & _ & _ & Hdl & Hrem & ->).
  rewrite sub64_remaining in Hrem by assumption.
  pose proof (field_range (Log.Data ev) 5) as R5.
  cbn [DepositTx.Data].
  assert (Hs : slice (Log.Data ev) 192 (add64 192 (field (Log.Data ev) 5))
               = firstn dataLen (skipn 192 (Log.Data ev))).
  { unfold slice, add64, remaining, fits_int, MaxInt, two64 in *.
    rewrite Z.mod_small by lia.
    replace (192 + field (Log.Data ev) 5 - 192)
      with (field (Log.Data ev) 5) by lia.
    reflexivity. }
  rewrite Hs. split; [reflexivity|]. split.
  - rewrite length_firstn, length_skipn.
    unfold remaining in Hrem. unfold dataLen. lia.
  - rewrite (Nat.add_comm 192 dataLen), <- skipn_skipn.
    rewrite firstn_skipn, firstn_skipn. reflexivity.
Qed.

Lemma UnmarshalLogEvent_data_witness :
  DepositTx.Data
    {| DepositTx.BlockHeight := 100;
       DepositTx.TransactionIndex := 1;
       DepositTx.From := Sample.alice;
       DepositTx.To := Some Sample.bob;
       DepositTx.Mint := Some 7;
       DepositTx.Value := 5;
       DepositTx.Gas := 21000;
       DepositTx.Data := [x01; x02; x03] |}
  = firstn (Z.to_nat (field (Log.Data Sample.deposit_log) 5))
           (skipn 192 (Log.Data Sample.deposit_log)).
Proof.
  refine (proj1 (UnmarshalLogEvent_data 100 1 Sample.deposit_log _ _ _)).
  - unfold fits_int, MaxInt. vm_compute. discriminate.
  - vm_compute. reflexivity.
Defined.

(** ** C10: the data-offset field *)

Lemma skipn_app_le {A : Type} (n : nat) (a r : list A) :
  (n <= List.length a)%nat -> skipn n (a ++ r) = skipn n a ++ r.
Proof.
  intros H. rewrite skipn_app.
  replace (n - List.length a)%nat with 0%nat by lia. reflexivity.
Qed.

Lemma firstn_app_le {A : Type} (n : nat) (a r : list A) :
  (n <= List.length a)%nat -> firstn n (a ++ r) = firstn n a.
Proof.
  intros H. rewrite firstn_app.
  replace (n - List.length a)%nat with 0%nat by lia.
  cbn [firstn]. apply app_nil_r.
Qed.

Lemma skipn_app_eq {A : Type} (n : nat) (a r : list A) :
  List.length a = n -> skipn n (a ++ r) = r.
Proof.
  intros <-. rewrite skipn_app, skipn_all, Nat.sub_diag. reflexivity.
Qed.

Lemma firstn_app_eq {A : Type} (n : nat) (a r : list A) :
  List.length a = n -> firstn n (a ++ r) = a.
Proof.
  intros <-. rewrite firstn_app_le by lia. apply firstn_all.
Qed.

Lemma skipn_past {A : Type} (n m : nat) (a r : list A) :
  List.length a = n -> skipn (m + n) (a ++ r) = skipn m r.
Proof.
  intros H. rewrite <- skipn_skipn, (skipn_app_eq n a r H). reflexivity.
Qed.

(** Overwriting bytes 128 to 160 of a payload changes the fifth field and
    nothing else the decoder reads. *)
Lemma patch_payload (a b b' c : bytes) :
  List.length a = 128%nat -> List.length b = 32%nat -> List.length b' = 32%nat ->
  List.length (a ++ b' ++ c) = List.length (a ++ b ++ c)
  /\ field (a ++ b' ++ c) 0 = field (a ++ b ++ c) 0
  /\ field (a ++ b' ++ c) 1 = field (a ++ b ++ c) 1
  /\ field (a ++ b' ++ c) 2 = field (a ++ b ++ c) 2
  /\ field (a ++ b' ++ c) 4 = SetBytes b'
  /\ field (a ++ b' ++ c) 5 = field (a ++ b ++ c) 5
  /\ index (a ++ b' ++ c) 127 = index (a ++ b ++ c) 127
  /\ skipn 192 (a ++ b' ++ c) = skipn 192 (a ++ b ++ c).
Proof.
  intros Ha Hb Hb'.
  assert (Hlow : forall k r, (k <= 2)%nat ->
            field (a ++ r) k = SetBytes (firstn 32 (skipn (32 * k) a))).
  { intros k r Hk. unfold field.
    rewrite skipn_app_le by lia.
    rewrite firstn_app_le by (rewrite length_skipn; lia). reflexivity. }
  assert (Hhigh : forall m x, List.length x = 32%nat ->
            skipn (m + 160) (a ++ x ++ c) = skipn m c).
  { intros m x Hx. replace (m + 160)%nat with ((m + 32) + 128)%nat by lia.
    rewrite (skipn_past 128 (m + 32) a _ Ha). apply skipn_past, Hx. }
  repeat split.
  - rewrite !length_app. lia.
  - rewrite !Hlow by lia. reflexivity.
  - rewrite !Hlow by lia. reflexivity.
  - rewrite !Hlow by lia. reflexivity.
  - unfold field. change (32 * 4)%nat with 128%nat.
    rewrite (skipn_app_eq 128 a _ Ha), (firstn_app_eq 32 b' c Hb').
    reflexivity.
  - unfold field. change (32 * 5)%nat with (0 + 160)%nat.
    rewrite !Hhigh by assumption. reflexivity.
  - unfold index. change (Z.to_nat 127) with 127%nat.
    rewrite !(app_nth1 a) by lia. reflexivity.
  - change 192%nat with (32 + 160)%nat.
    rewrite !Hhigh by assumption. reflexivity.
Qed.

Lemma with_data_offset_payload (ev : Log.t) (off : bytes) :
  192 <= Z.of_nat (List.length (Log.Data ev)) -> List.length off = 32%nat ->
  let d := Log.Data ev in
  let d' := Log.Data (with_data_offset ev off) in
  List.length d' = List.length d
  /\ field d' 0 = field d 0
  /\ field d' 1 = field d 1
  /\ field d' 2 = field d 2
  /\ field d' 4 = SetBytes off
  /\ field d' 5 = field d 5
  /\ index d' 127 = index d 127
  /\ skipn 192 d' = skipn 192 d.
Proof.
  intros Hlen Hoff d d'. subst d'. cbn [with_data_offset Log.Data]. fold d.
  fold d in Hlen.
  assert (Hd : d = firstn 128 d ++ firstn 32 (skipn 128 d) ++ skipn 160 d).
  { change 160%nat with (32 + 128)%nat. rewrite <- (skipn_skipn 32 128 d).
    rewrite (firstn_skipn 32), (firstn_skipn 128). reflexivity. }
  generalize (patch_payload (firstn 128 d) (firstn 32 (skipn 128 d)) off
                (skipn 160 d)).
  rewrite <- Hd. intros H. apply H.
  - rewrite length_firstn. lia.
  - rewrite length_firstn, length_skipn. lia.
  - exact Hoff.
Qed.

(** C10. The declared data offset is not used to locate the data.  For a
    log that decodes, [Data] is the declared number of bytes of the payload
    from byte 192 on.  When the offset field is overwritten by any 32 bytes
    that do not decode to 128, whatever position they name, the log decodes
    to the same deposit, and its [Data] is again the bytes from byte 192 of
    the new payload; overwritten by the encoding of 128, it is rejected. *)
Theorem UnmarshalLogEvent_ignores_data_offset
  (blockNum txIndex : Z) (ev : Log.t) (dep : DepositTx.t) (off : bytes) :
  fits_int (List.length (Log.Data ev)) ->
  UnmarshalLogEvent blockNum txIndex ev = Ok dep ->
  List.length off = 32%nat ->
  let ev' := with_data_offset ev off in
  let dataLen := Z.to_nat (field (Log.Data ev) 5) in
  DepositTx.Data dep = firstn dataLen (skipn 192 (Log.Data ev))
  /\ List.length (DepositTx.Data dep) = dataLen
  /\ field (Log.Data ev') 4 = SetBytes off
  /\ (SetBytes off <> 128 ->
      UnmarshalLogEvent blockNum txIndex ev' = Ok dep
      /\ DepositTx.Data dep = firstn dataLen (skipn 192 (Log.Data ev')))
  /\ (SetBytes off = 128 ->
      UnmarshalLogEvent blockNum txIndex ev' = Err (ErrDataOffset 128)).
Proof.
  intros Hfit H Hoff ev' dataLen. subst ev'.
  apply UnmarshalLogEvent_Ok_iff in H.
  destruct H as (Hts & Hsel & Hlen & Hgas & Hne & Hdl & Hrem & ->).
  destruct (with_data_offset_payload ev off Hlen Hoff)
    as (Pl & P0 & P1 & P2 & P4 & P5 & Pi & Ps).
  cbv zeta in *.
  pose proof (field_range (Log.Data ev) 5) as R5.
  assert (Hrem' : field (Log.Data ev) 5 <= remaining (Log.Data ev))
    by (rewrite <- sub64_remaining by assumption; exact Hrem).
  assert (Hs : slice (Log.Data ev) 192 (add64 192 (field (Log.Data ev) 5))
               = firstn dataLen (skipn 192 (Log.Data ev))).
  { unfold slice, add64, remaining, fits_int, MaxInt, two64 in *.
    rewrite Z.mod_small by lia.
    replace (192 + field (Log.Data ev) 5 - 192)
      with (field (Log.Data ev) 5) by lia.
    reflexivity. }
  cbn [DepositTx.Data]. rewrite Hs.
  conjs.
  - reflexivity.
  - rewrite length_firstn, length_skipn.
    unfold remaining in Hrem'. unfold dataLen. lia.
  - exact P4.
  - intros Hoff128. split.
    + apply UnmarshalLogEvent_Ok_iff.
      rewrite Pl, P0, P1, P2, P4, P5, Pi.
      conjs; try assumption.
      rewrite <- Hs. unfold slice. change (Z.to_nat 192) with 192%nat.
      rewrite Ps. reflexivity.
    + rewrite Ps. reflexivity.
  - intros Hoff128.
    assert (Hfit' : fits_int (List.length (Log.Data (with_data_offset ev off))))
      by (rewrite Pl; exact Hfit).
    destruct (UnmarshalLogEvent_paths blockNum txIndex (with_data_offset ev off)
                Hfit') as (_ & _ & _ & _ & P & _).
    cbv zeta in P. apply P.
    + exact Hts.
    + exact Hsel.
    + rewrite Pl. exact Hlen.
    + rewrite P2. exact Hgas.
    + rewrite P4. exact Hoff128.
Qed.

Lemma UnmarshalLogEvent_ignores_data_offset_witness :
  UnmarshalLogEvent 100 1
    (with_data_offset Sample.deposit_log (be_encode 32 0))
  = Ok {| DepositTx.BlockHeight := 100;
          DepositTx.TransactionIndex := 1;
          DepositTx.From := Sample.alice;
          DepositTx.To := Some Sample.bob;
          DepositTx.Mint := Some 7;
          DepositTx.Value := 5;
          DepositTx.Gas := 21000;
          DepositTx.Data := [x01; x02; x03] |}
  /\ [x01; x02; x03]
     = firstn 3 (skipn 192 (Log.Data (with_data_offset Sample.deposit_log
                                        (be_encode 32 0))))
  /\ field (Log.Data (with_data_offset Sample.deposit_log (be_encode 32 0))) 4
     = 0
  /\ UnmarshalLogEvent 100 1
       (with_data_offset Sample.deposit_log (be_encode 32 128))
     = Err (ErrDataOffset 128).
Proof.
  pose proof (UnmarshalLogEvent_ignores_data_offset 100 1 Sample.deposit_log
                _ (be_encode 32 0)
                ltac:(unfold fits_int, MaxInt; vm_compute; discriminate)
                sample_deposit_decodes eq_refl) as P.
  pose proof (UnmarshalLogEvent_ignores_data_offset 100 1 Sample.deposit_log
                _ (be_encode 32 128)
                ltac:(unfold fits_int, MaxInt; vm_compute; discriminate)
                sample_deposit_decodes eq_refl) as Q.
  cbv zeta in P, Q.
  destruct P as (_ & _ & P4 & P & _). destruct Q as (_ & _ & _ & _ & Q).
  destruct (P ltac:(vm_compute; discriminate)) as (Pd & Pdata).
  conjs.
  - exact Pd.
  - exact Pdata.
  - exact P4.
  - apply Q. vm_compute. reflexivity.
Defined.

(** ** The decoder and its context arguments *)

(** The block height and the index only fill two fields of the result. *)
Lemma UnmarshalLogEvent_context (blockNum txIndex : Z) (ev : Log.t) :
  UnmarshalLogEvent blockNum txIndex ev
  = match UnmarshalLogEvent 0 0 ev with
    | Err err => Err err
    | Ok dep =>
        Ok {| DepositTx.BlockHeight := blockNum;
              DepositTx.TransactionIndex := txIndex;
              DepositTx.From := DepositTx.From dep;
              DepositTx.To := DepositTx.To dep;
              DepositTx.Mint := DepositTx.Mint dep;
              DepositTx.Value := DepositTx.Value dep;
              DepositTx.Gas := DepositTx.Gas dep;
              DepositTx.Data := DepositTx.Data dep |}
    end.
Proof.
  rewrite !UnmarshalLogEvent_eq. cbv zeta.
  repeat match goal with
         | |- context [if ?c then _ else _] => destruct c
         end; reflexivity.
Qed.

Lemma UnmarshalLogEvent_Err_any (blockNum txIndex blockNum' txIndex' : Z)
  (ev : Log.t) (err : error) :
  UnmarshalLogEvent blockNum txIndex ev = Err err ->
  UnmarshalLogEvent blockNum' txIndex' ev = Err err.
Proof.
  rewrite (UnmarshalLogEvent_context blockNum),
    (UnmarshalLogEvent_context blockNum').
  destruct (UnmarshalLogEvent 0 0 ev); [discriminate | tauto].
Qed.

Lemma UnmarshalLogEvent_Ok_any (blockNum txIndex blockNum' txIndex' : Z)
  (ev : Log.t) (dep : DepositTx.t) :
  UnmarshalLogEvent blockNum txIndex ev = Ok dep ->
  exists dep', UnmarshalLogEvent blockNum' txIndex' ev = Ok dep'.
Proof.
  rewrite (UnmarshalLogEvent_context blockNum),
    (UnmarshalLogEvent_context blockNum').
  destruct (UnmarshalLogEvent 0 0 ev); [eauto | discriminate].
Qed.

Lemma UnmarshalLogEvent_index (blockNum txIndex : Z) (ev : Log.t)
  (dep : DepositTx.t) :
  UnmarshalLogEvent blockNum txIndex ev = Ok dep ->
  DepositTx.BlockHeight dep = blockNum /\ DepositTx.TransactionIndex dep = txIndex.
Proof.
  rewrite UnmarshalLogEvent_context.
  destruct (UnmarshalLogEvent 0 0 ev); [|discriminate].
  intros [= <-]. split; reflexivity.
Qed.

(** Every error of the decoder is of the [MalformedEvent] class. *)
Lemma UnmarshalLogEvent_Err_malformed (blockNum txIndex : Z) (ev : Log.t)
  (err : error) :
  UnmarshalLogEvent blockNum txIndex ev = Err err -> MalformedEvent err.
Proof.
  rewrite UnmarshalLogEvent_eq. cbv zeta.
  repeat match goal with
         | |- context [if ?c then _ else _] => destruct c
         end; intros [= <-]; exact I.
Qed.

(** The recorded position of a log is not read. *)
Lemma UnmarshalLogEvent_reposition (pos : Log.t -> Z * Z)
  (blockNum txIndex : Z) (ev : Log.t) :
  UnmarshalLogEvent blockNum txIndex (reposition_log pos ev)
  = UnmarshalLogEvent blockNum txIndex ev.
Proof. reflexivity. Qed.

(** ** User deposits *)

Lemma length_decode_from (height i : Z) (logs : list Log.t)
  (deps : list DepositTx.t) :
  decode_from height i logs = Ok deps -> List.length deps = List.length logs.
Proof.
  revert i deps; induction logs as [|ev logs IH]; intros i deps; simpl.
  - intros [= <-]. reflexivity.
  - destruct (UnmarshalLogEvent height i ev); [|discriminate].
    destruct (decode_from height (i + 1) logs) eqn:E; [|discriminate].
    intros [= <-]. simpl. f_equal. eapply IH, E.
Qed.

Lemma decode_from_app (height i : Z) (xs ys : list Log.t) :
  decode_from height i (xs ++ ys)
  = match decode_from height i xs with
    | Err err => Err err
    | Ok ds =>
        match decode_from height (i + Z.of_nat (List.length xs)) ys with
        | Err err => Err err
        | Ok ds' => Ok (ds ++ ds')
        end
    end.
Proof.
  revert i; induction xs as [|ev xs IH]; intros i.
  - cbn [app decode_from List.length]. rewrite Z.add_0_r.
    destruct (decode_from height i ys); reflexivity.
  - cbn [app decode_from]. destruct (UnmarshalLogEvent height i ev);
      [|reflexivity].
    rewrite IH.
    destruct (decode_from height (i + 1) xs); [|reflexivity].
    replace (i + Z.of_nat (List.length (ev :: xs)))
      with (i + 1 + Z.of_nat (List.length xs))
      by (cbn [List.length]; lia).
    destruct (decode_from height (i + 1 + Z.of_nat (List.length xs)) ys);
      reflexivity.
Qed.

(** The elements of a decoded list, one by one. *)
Lemma decode_from_nth (height i : Z) (logs : list Log.t)
  (deps : list DepositTx.t) :
  decode_from height i logs = Ok deps ->
  forall (k : nat) (ev : Log.t),
    nth_error logs k = Some ev ->
    exists dep,
      nth_error deps k = Some dep
      /\ UnmarshalLogEvent height (i + Z.of_nat k) ev = Ok dep.
Proof.
  revert i deps; induction logs as [|x logs IH]; intros i deps H k ev Hk.
  - destruct k; discriminate.
  - cbn [decode_from] in H.
    destruct (UnmarshalLogEvent height i x) as [d|] eqn:Ex; [|discriminate].
    destruct (decode_from height (i + 1) logs) as [ds|] eqn:E; [|discriminate].
    injection H as <-.
    destruct k as [|k].
    + injection Hk as <-. exists d. rewrite Z.add_0_r. split; [reflexivity | exact Ex].
    + cbn [nth_error] in Hk |- *.
      destruct (IH _ _ E k ev Hk) as (dep & Hn & Hd).
      exists dep. split; [exact Hn|].
      replace (i + Z.of_nat (S k)) with (i + 1 + Z.of_nat k) by lia. exact Hd.
Qed.

Lemma scan_logs_decode (height : Z) (logs : list Log.t)
  (out : list DepositTx.t) :
  let kept :=
    filter (fun log => bytes_eqb (Log.Address log) DepositContractAddr) logs in
  Z.of_nat (List.length out) + Z.of_nat (List.length kept) < two64 ->
  scan_logs height logs out
  = match decode_from height (Z.of_nat (List.length out) + 1) kept with
    | Err err => Err err
    | Ok deps => Ok (out ++ deps)
    end.
Proof.
  cbv zeta. revert out; induction logs as [|log logs IH]; intros out Hb.
  - cbn. rewrite app_nil_r. reflexivity.
  - cbn [scan_logs filter] in Hb |- *.
    destruct (bytes_eqb (Log.Address log) DepositContractAddr).
    + cbn [List.length] in Hb. cbn [decode_from].
      assert (Hi : add64 (Z.of_nat (List.length out)) 1
                   = Z.of_nat (List.length out) + 1).
      { unfold add64. apply Z.mod_small. lia. }
      rewrite Hi.
      destruct (UnmarshalLogEvent height (Z.of_nat (List.length out) + 1) log)
        as [dep|err]; [|reflexivity].
      rewrite IH by (rewrite length_app; cbn [List.length]; lia).
      rewrite length_app. cbn [List.length].
      replace (Z.of_nat (List.length out + 1) + 1)
        with (Z.of_nat (List.length out) + 1 + 1) by lia.
      destruct (decode_from height (Z.of_nat (List.length out) + 1 + 1) _);
        [|reflexivity].
      rewrite <- app_assoc. reflexivity.
    + apply IH, Hb.
Qed.

Lemma scan_receipts_decode (height : Z) (receipts : list Receipt.t)
  (out : list DepositTx.t) :
  Z.of_nat (List.length out) + Z.of_nat (List.length (keptLogs receipts)) < two64 ->
  scan_receipts height receipts out
  = match decode_from height (Z.of_nat (List.length out) + 1)
            (keptLogs receipts) with
    | Err err => Err err
    | Ok deps => Ok (out ++ deps)
    end.
Proof.
  revert out; induction receipts as [|rec receipts IH]; intros out Hb.
  - cbn. rewrite app_nil_r. reflexivity.
  - cbn [scan_receipts keptLogs flat_map] in Hb |- *. fold (keptLogs receipts) in *.
    destruct (Receipt.Status rec =? ReceiptStatusSuccessful); cbn [negb].
    + rewrite length_app in Hb.
      rewrite scan_logs_decode by (cbv zeta; lia).
      rewrite decode_from_app.
      destruct (decode_from height (Z.of_nat (List.length out) + 1) _)
        as [ds|err] eqn:E; [|reflexivity].
      apply length_decode_from in E.
      rewrite IH by (rewrite length_app; lia).
      rewrite length_app, E.
      replace (Z.of_nat (List.length out + List.length _) + 1)
        with (Z.of_nat (List.length out) + 1 + Z.of_nat
                (List.length (filter (fun log => bytes_eqb (Log.Address log)
                                                   DepositContractAddr)
                                (Receipt.Logs rec)))) by lia.
      destruct (decode_from height _ (keptLogs receipts)); [|reflexivity].
      rewrite app_assoc. reflexivity.
    + cbn [app]. apply IH, Hb.
Qed.

Lemma scan_logs_reposition (pos : Log.t -> Z * Z) (height : Z)
  (logs : list Log.t) (out : list DepositTx.t) :
  scan_logs height (map (reposition_log pos) logs) out
  = scan_logs height logs out.
Proof.
  revert out; induction logs as [|log logs IH]; intros out; [reflexivity|].
  cbn [map scan_logs]. rewrite UnmarshalLogEvent_reposition.
  cbn [reposition_log Log.Address].
  destruct (bytes_eqb (Log.Address log) DepositContractAddr); [|apply IH].
  destruct (UnmarshalLogEvent height _ log); [apply IH | reflexivity].
Qed.

Lemma scan_receipts_reposition (pos : Log.t -> Z * Z) (height : Z)
  (receipts : list Receipt.t) (out : list DepositTx.t) :
  scan_receipts height (map (reposition pos) receipts) out
  = scan_receipts height receipts out.
Proof.
  revert out; induction receipts as [|rec receipts IH]; intros out;
    [reflexivity|].
  cbn [map scan_receipts reposition Receipt.Status Receipt.Logs].
  destruct (negb (Receipt.Status rec =? ReceiptStatusSuccessful)); [apply IH|].
  rewrite scan_logs_reposition.
  destruct (scan_logs height (Receipt.Logs rec) out); [apply IH | reflexivity].
Qed.

Lemma scan_receipts_skip_failed (height : Z)
  (before after : list Receipt.t) (rec : Receipt.t) (out : list DepositTx.t) :
  Receipt.Status rec <> ReceiptStatusSuccessful ->
  scan_receipts height (before ++ rec :: after) out
  = scan_receipts height (before ++ after) out.
Proof.
  intros Hst. revert out; induction before as [|r before IH]; intros out.
  - cbn [app scan_receipts].
    destruct (Z.eqb_spec (Receipt.Status rec) ReceiptStatusSuccessful);
      [contradiction | reflexivity].
  - cbn [app scan_receipts].
    destruct (negb (Receipt.Status r =? ReceiptStatusSuccessful)); [apply IH|].
    destruct (scan_logs height (Receipt.Logs r) out); [apply IH | reflexivity].
Qed.

(** C2. [DeriveUserDeposits] returns the kept logs (successful receipt,
    deposit-contract address) decoded in encounter order, the one at
    position [k] with [TransactionIndex k + 1]; the positions the chain
    recorded for the logs play no part, and a receipt that is not successful
    can be dropped without changing the result. *)
Theorem DeriveUserDeposits_spec (height : Z) (receipts : list Receipt.t) :
  fits_int (List.length (keptLogs receipts)) ->
  DeriveUserDeposits height receipts
  = match decode_from height 1 (keptLogs receipts) with
    | Ok deps => (deps, None)
    | Err err => ([], Some err)
    end
  /\ (forall out,
         DeriveUserDeposits height receipts = (out, None) ->
         List.length out = List.length (keptLogs receipts)
         /\ forall (k : nat) (ev : Log.t),
             nth_error (keptLogs receipts) k = Some ev ->
             exists dep,
               nth_error out k = Some dep
               /\ UnmarshalLogEvent height (Z.of_nat k + 1) ev = Ok dep
               /\ DepositTx.TransactionIndex dep = Z.of_nat k + 1)
  /\ (forall pos : Log.t -> Z * Z,
         DeriveUserDeposits height (map (reposition pos) receipts)
         = DeriveUserDeposits height receipts)
  /\ (forall before rec after,
         receipts = before ++ rec :: after ->
         Receipt.Status rec <> ReceiptStatusSuccessful ->
         DeriveUserDeposits height receipts
         = DeriveUserDeposits height (before ++ after)).
Proof.
  intros Hfit.
  assert (Heq : DeriveUserDeposits height receipts
                = match decode_from height 1 (keptLogs receipts) with
                  | Ok deps => (deps, None)
                  | Err err => ([], Some err)
                  end).
  { unfold DeriveUserDeposits.
    rewrite scan_receipts_decode
      by (unfold fits_int, MaxInt, two64 in *; cbn [List.length]; lia).
    cbn [List.length Z.of_nat Z.add app].
    destruct (decode_from height 1 (keptLogs receipts)); reflexivity. }
  split; [exact Heq|]. split; [|split].
  - intros out Hout. rewrite Heq in Hout.
    destruct (decode_from height 1 (keptLogs receipts)) as [deps|err] eqn:E;
      [|discriminate].
    injection Hout as <-.
    split; [eapply length_decode_from, E|].
    intros k ev Hk.
    destruct (decode_from_nth _ _ _ _ E k ev Hk) as (dep & Hn & Hd).
    rewrite (Z.add_comm 1) in Hd.
    exists dep. repeat split; try assumption.
    eapply UnmarshalLogEvent_index, Hd.
  - intros pos. unfold DeriveUserDeposits.
    rewrite scan_receipts_reposition. reflexivity.
  - intros before rec after -> Hst. unfold DeriveUserDeposits.
    rewrite scan_receipts_skip_failed by exact Hst. reflexivity.
Qed.

Example Sample_user_deposits :
  DeriveUserDeposits 100 Sample.receipts
  = ([ {| DepositTx.BlockHeight := 100;
          DepositTx.TransactionIndex := 1;
          DepositTx.From := Sample.alice;
          DepositTx.To := Some Sample.bob;
          DepositTx.Mint := Some 7;
          DepositTx.Value := 5;
          DepositTx.Gas := 21000;
          DepositTx.Data := [x01; x02; x03] |};
       {| DepositTx.BlockHeight := 100;
          DepositTx.TransactionIndex := 2;
          DepositTx.From := Sample.alice;
          DepositTx.To := None;
          DepositTx.Mint := None;
          DepositTx.Value := 1;
          DepositTx.Gas := 50000;
          DepositTx.Data := [xaa; xbb] |} ], None).
Proof. vm_compute. reflexivity. Qed.

Lemma DeriveUserDeposits_spec_witness :
  DeriveUserDeposits 100 Sample.receipts
  = match decode_from 100 1 (keptLogs Sample.receipts)
          return (list DepositTx.t * option error) with
    | Ok deps => (deps, None)
    | Err err => ([], Some err)
    end.
Proof.
  refine (proj1 (DeriveUserDeposits_spec 100 Sample.receipts _)).
  unfold fits_int, MaxInt. vm_compute. discriminate.
Defined.

(** ** C8: a kept log that does not decode *)

(** What the inner loop returns, without any bound on the number of logs:
    either every kept log decodes, or the error is that of the first kept
    log that does not. *)
Lemma scan_logs_result (height : Z) (logs : list Log.t)
  (out : list DepositTx.t) :
  let kept :=
    filter (fun log => bytes_eqb (Log.Address log) DepositContractAddr) logs in
  match scan_logs height logs out with
  | Ok _ =>
      Forall (fun x => forall ti, exists d, UnmarshalLogEvent height ti x = Ok d)
             kept
  | Err err =>
      exists before bad after cause,
        kept = before ++ bad :: after
        /\ Forall (fun x => forall ti, exists d,
                       UnmarshalLogEvent height ti x = Ok d) before
        /\ (forall ti, UnmarshalLogEvent height ti bad = Err cause)
        /\ err = ErrMalformattedLog cause
  end.
Proof.
  cbv zeta. revert out; induction logs as [|log logs IH]; intros out.
  - cbn. constructor.
  - cbn [scan_logs filter].
    destruct (bytes_eqb (Log.Address log) DepositContractAddr); [|apply IH].
    destruct (UnmarshalLogEvent height _ log) as [dep|cause] eqn:E.
    + assert (Hdec : forall ti, exists d, UnmarshalLogEvent height ti log = Ok d)
        by (intros ti; eapply UnmarshalLogEvent_Ok_any, E).
      specialize (IH (out ++ [dep])).
      destruct (scan_logs height logs (out ++ [dep])).
      * constructor; assumption.
      * destruct IH as (before & bad & after & c & Hk & Hb & Hc & ->).
        exists (log :: before), bad, after, c. rewrite Hk.
        repeat split; try assumption. constructor; assumption.
    + exists [], log,
        (filter (fun log => bytes_eqb (Log.Address log) DepositContractAddr) logs),
        cause.
      repeat split; [constructor|].
      intros ti. eapply UnmarshalLogEvent_Err_any, E.
Qed.

Lemma scan_receipts_result (height : Z) (receipts : list Receipt.t)
  (out : list DepositTx.t) :
  match scan_receipts height receipts out with
  | Ok _ =>
      Forall (fun x => forall ti, exists d, UnmarshalLogEvent height ti x = Ok d)
             (keptLogs receipts)
  | Err err =>
      exists before bad after cause,
        keptLogs receipts = before ++ bad :: after
        /\ Forall (fun x => forall ti, exists d,
                       UnmarshalLogEvent height ti x = Ok d) before
        /\ (forall ti, UnmarshalLogEvent height ti bad = Err cause)
        /\ err = ErrMalformattedLog cause
  end.
Proof.
  revert out; induction receipts as [|rec receipts IH]; intros out.
  - cbn. constructor.
  - cbn [scan_receipts keptLogs flat_map]. fold (keptLogs receipts).
    destruct (Receipt.Status rec =? ReceiptStatusSuccessful); cbn [negb];
      [|apply IH].
    pose proof (scan_logs_result height (Receipt.Logs rec) out) as HL.
    cbv zeta in HL.
    destruct (scan_logs height (Receipt.Logs rec) out) as [out'|err].
    + specialize (IH out').
      destruct (scan_receipts height receipts out').
      * apply Forall_app. split; assumption.
      * destruct IH as (before & bad & after & c & Hk & Hb & Hc & ->).
        exists (filter (fun log => bytes_eqb (Log.Address log) DepositContractAddr)
                  (Receipt.Logs rec) ++ before), bad, after, c.
        rewrite Hk, app_assoc.
        repeat split; try assumption. apply Forall_app. split; assumption.
    + destruct HL as (before & bad & after & c & Hk & Hb & Hc & ->).
      exists before, bad, (after ++ keptLogs receipts), c.
      rewrite Hk, <- app_assoc.
      repeat split; assumption.
Qed.

(** C8. When a kept log does not decode, [DeriveUserDeposits] returns a nil
    list and the error that wraps the [MalformedEvent] failure of the first
    kept log that does not decode; and whenever it returns an error, the
    list is nil. *)
Theorem DeriveUserDeposits_aborts (height txIndex : Z)
  (receipts : list Receipt.t) (ev : Log.t) (err : error) :
  In ev (keptLogs receipts) ->
  UnmarshalLogEvent height txIndex ev = Err err ->
  (exists before bad after cause,
      keptLogs receipts = before ++ bad :: after
      /\ (forall x, In x before ->
                    forall ti, exists d, UnmarshalLogEvent height ti x = Ok d)
      /\ (forall ti, UnmarshalLogEvent height ti bad = Err cause)
      /\ MalformedEvent cause
      /\ DeriveUserDeposits height receipts
         = ([], Some (ErrMalformattedLog cause)))
  /\ (forall out e,
         DeriveUserDeposits height receipts = (out, Some e) -> out = []).
Proof.
  intros Hin Hbad. split.
  - pose proof (scan_receipts_result height receipts []) as H.
    unfold DeriveUserDeposits.
    destruct (scan_receipts height receipts []) as [out|e].
    + exfalso. rewrite Forall_forall in H.
      destruct (H ev Hin txIndex) as (d & Hd). congruence.
    + destruct H as (before & bad & after & c & Hk & Hb & Hc & ->).
      exists before, bad, after, c. rewrite Forall_forall in Hb.
      repeat split; try assumption.
      eapply UnmarshalLogEvent_Err_malformed, (Hc 0).
  - unfold DeriveUserDeposits. intros out e.
    destruct (scan_receipts height receipts []); intros [= <-]; reflexivity.
Qed.


Lemma DeriveUserDeposits_aborts_witness :
  exists cause,
    MalformedEvent cause
    /\ DeriveUserDeposits 100 Sample.bad_receipts
       = ([], Some (ErrMalformattedLog cause)).
Proof.
  destruct (proj1 (DeriveUserDeposits_aborts 100 2 Sample.bad_receipts
                     Sample.offset128_log (ErrDataOffset 128)
                     ltac:(vm_compute; right; left; reflexivity)
                     ltac:(vm_compute; reflexivity)))
    as (_ & _ & _ & cause & _ & _ & _ & Hm & Hr).
  exists cause. split; assumption.
Defined.

(** ** C9: what the errors carry *)




(** ** C3: the L1-info deposit *)

(** The five writes into the zeroed 84-byte buffer lay the pieces out one
    after the other. *)
Lemma l1_info_layout (sel num time fee hash : bytes) :
  List.length sel = 4%nat -> List.length num = 8%nat ->
  List.length time = 8%nat -> List.length fee = 32%nat ->
  List.length hash = 32%nat ->
  copy (copy (copy (copy (copy (make (4 + 8 + 8 + 32 + 32)) 0 4 sel)
                         (0 + 4) (0 + 4 + 8) num)
                   (0 + 4 + 8) (0 + 4 + 8 + 8) time)
             (0 + 4 + 8 + 8) (0 + 4 + 8 + 8 + 32) fee)
       (0 + 4 + 8 + 8 + 32) (0 + 4 + 8 + 8 + 32 + 32) hash
  = sel ++ num ++ time ++ fee ++ hash.
Proof.
  intros Hs Hn Ht Hf Hh.
  do 4 (destruct sel as [|? sel]; [discriminate|]).
  destruct sel; [|discriminate].
  do 8 (destruct num as [|? num]; [discriminate|]).
  destruct num; [|discriminate].
  do 8 (destruct time as [|? time]; [discriminate|]).
  destruct time; [|discriminate].
  do 32 (destruct fee as [|? fee]; [discriminate|]).
  destruct fee; [|discriminate].
  do 32 (destruct hash as [|? hash]; [discriminate|]).
  destruct hash; [|discriminate].
  reflexivity.
Qed.

Lemma length_L1InfoFuncBytes4 : List.length L1InfoFuncBytes4 = 4%nat.
Proof. vm_compute. reflexivity. Qed.

(** The selector the code computes and the one of the canonical signature. *)
Example L1InfoFuncBytes4_value : L1InfoFuncBytes4 = [x8c; x89; xc3; x86].
Proof. vm_compute. reflexivity. Qed.

Example canonical_selector_value :
  slice (crypto.Keccak256 (list_byte_of_string L1InfoCanonicalSignature)) 0 4
  = [xc0; x3b; xa4; x3e].
Proof. vm_compute. reflexivity. Qed.

Lemma L1InfoFuncBytes4_not_canonical :
  L1InfoFuncBytes4
  <> slice (crypto.Keccak256 (list_byte_of_string L1InfoCanonicalSignature)) 0 4.
Proof.
  rewrite L1InfoFuncBytes4_value, canonical_selector_value. discriminate.
Qed.

Lemma FillBytes_fits (fee : Z) (n : nat) :
  0 <= fee < 256 ^ Z.of_nat n -> FillBytes (Some fee) n = Ret (be_encode n fee).
Proof.
  intros Hf. unfold FillBytes. rewrite Z.abs_eq by lia.
  destruct (Z.ltb_spec fee (256 ^ Z.of_nat n)); [reflexivity | lia].
Qed.

(** C3, for a block that has a base fee.  The deposit goes from the deposit
    contract to the L1-info predeploy with zero value, no mint, gas
    99,999,999 and index 0; its data are 84 bytes: the selector, the number
    and the timestamp on 8 bytes each, the base fee and the hash on 32 bytes
    each, big-endian; and it is the same for any two block views with the
    same number, timestamp, base fee and hash. *)
Theorem DeriveL1InfoDeposit_spec {B : Type} `{L1Info B} (block : B) (fee : Z) :
  BaseFee block = Some fee ->
  0 <= fee < 2 ^ 256 ->
  List.length (Hash block) = 32%nat ->
  (exists dep,
      DeriveL1InfoDeposit block = Ret dep
      /\ DepositTx.From dep = DepositContractAddr
      /\ DepositTx.To dep = Some L1InfoPredeployAddr
      /\ DepositTx.Value dep = 0
      /\ DepositTx.Mint dep = None
      /\ DepositTx.Gas dep = 99999999
      /\ DepositTx.TransactionIndex dep = 0
      /\ List.length (DepositTx.Data dep) = 84%nat
      /\ DepositTx.Data dep
         = L1InfoFuncBytes4 ++ be_encode 8 (NumberU64 block)
             ++ be_encode 8 (Time block) ++ be_encode 32 fee ++ Hash block)
  /\ (forall (B' : Type) (H' : L1Info B') (block' : B'),
         NumberU64 block' = NumberU64 block -> Time block' = Time block ->
         BaseFee block' = BaseFee block -> Hash block' = Hash block ->
         DeriveL1InfoDeposit block' = DeriveL1InfoDeposit block).
Proof.
  intros Hfee Hrange Hhash. split.
  - unfold DeriveL1InfoDeposit. rewrite Hfee.
    rewrite FillBytes_fits by (change (256 ^ Z.of_nat 32) with (2 ^ 256); lia).
    cbn [bind].
    rewrite l1_info_layout;
      rewrite ?length_PutUint64, ?length_be_encode, ?length_L1InfoFuncBytes4;
      try reflexivity; try assumption.
    rewrite !PutUint64_be_encode.
    eexists. split; [reflexivity|].
    cbn [DepositTx.From DepositTx.To DepositTx.Value DepositTx.Mint
         DepositTx.Gas DepositTx.TransactionIndex DepositTx.Data].
    repeat split.
    rewrite !length_app, !length_be_encode, length_L1InfoFuncBytes4, Hhash.
    reflexivity.
  - intros B' H' block' Hn Ht Hf Hh.
    unfold DeriveL1InfoDeposit. rewrite Hn, Ht, Hf, Hh. reflexivity.
Qed.

Example Sample_l1_info_deposit :
  DeriveL1InfoDeposit Sample.london_block
  = Ret {| DepositTx.BlockHeight := 100;
           DepositTx.TransactionIndex := 0;
           DepositTx.From := DepositContractAddr;
           DepositTx.To := Some L1InfoPredeployAddr;
           DepositTx.Mint := None;
           DepositTx.Value := 0;
           DepositTx.Gas := 99999999;
           DepositTx.Data :=
             [x8c; x89; xc3; x86]
               ++ [x00; x00; x00; x00; x00; x00; x00; x64]
               ++ [x00; x00; x00; x00; x00; x00; x03; xe8]
               ++ repeat x00 31 ++ [x07]
               ++ repeat xaa 32 |}.
Proof. vm_compute. reflexivity. Qed.

Lemma DeriveL1InfoDeposit_spec_witness :
  exists dep,
    DeriveL1InfoDeposit Sample.london_block = Ret dep
    /\ List.length (DepositTx.Data dep) = 84%nat.
Proof.
  destruct (proj1 (@DeriveL1InfoDeposit_spec _ Sample.Header_L1Info
                     Sample.london_block 7 eq_refl
                     ltac:(lia) eq_refl))
    as (dep & Hd & _ & _ & _ & _ & _ & _ & Hl & _).
  exists dep. split; assumption.
Defined.

(** C3 as stated fails on a block without a base fee (one from before the
    base fee was introduced, whose [BaseFee()] is nil): the call panics and
    returns no deposit. *)
Lemma DeriveL1InfoDeposit_panics_without_base_fee :
  DeriveL1InfoDeposit Sample.pre_london_block = Panic NilDereference
  /\ ~ (exists dep, DeriveL1InfoDeposit Sample.pre_london_block = Ret dep).
Proof.
  assert (H : DeriveL1InfoDeposit Sample.pre_london_block = Panic NilDereference)
    by reflexivity.
  split; [exact H|]. rewrite H. intros (dep & Hd). discriminate.
Qed.

(** ** C4 and C5: block inputs *)

Section BlockInputsProperties.

Variable DeriveSha : list Receipt.t -> common.Hash.
Variable MarshalBinary : DepositTx.t -> outcome (bytes * option error).

Lemma encode_user_txs_Ok (i : Z) (userDeposits : list DepositTx.t)
  (encodedTxs out : list bytes) :
  encode_user_txs MarshalBinary i userDeposits encodedTxs = Ret (Ok out) ->
  exists opaqueTxs,
    out = encodedTxs ++ opaqueTxs
    /\ Forall2 (fun tx opaqueTx => MarshalBinary tx = Ret (opaqueTx, None))
               userDeposits opaqueTxs.
Proof.
  revert i encodedTxs out; induction userDeposits as [|tx rest IH];
    intros i encodedTxs out; cbn [encode_user_txs].
  - intros [= <-]. exists []. rewrite app_nil_r. split; constructor.
  - destruct (MarshalBinary tx) as [p|[opaqueTx [err|]]] eqn:E;
      cbn [bind snd fst]; try discriminate.
    intros Hrest. destruct (IH _ _ _ Hrest) as (opaqueTxs & -> & HF).
    exists (opaqueTx :: opaqueTxs). rewrite <- app_assoc.
    split; [reflexivity|]. constructor; [exact E | exact HF].
Qed.

(** C4. When [DeriveBlockInputs] returns without an error, the attributes
    hold the encoded L1-info transaction first, then the encoded user
    deposits in their order, and the zero address as fee recipient; with
    no user deposit there is the one transaction. *)
Theorem DeriveBlockInputs_transactions {B : Type} `{BlockInput B}
  (block : B) (receipts : list Receipt.t)
  (res : option PayloadAttributes.t) :
  DeriveBlockInputs DeriveSha MarshalBinary block receipts = Ret (res, None) ->
  exists attrs l1Tx opaqueL1Tx userDeposits opaqueTxs,
    res = Some attrs
    /\ DeriveL1InfoDeposit block = Ret l1Tx
    /\ MarshalBinary l1Tx = Ret (opaqueL1Tx, None)
    /\ DeriveUserDeposits (NumberU64 block) receipts = (userDeposits, None)
    /\ Forall2 (fun tx opaqueTx => MarshalBinary tx = Ret (opaqueTx, None))
               userDeposits opaqueTxs
    /\ PayloadAttributes.Transactions attrs = opaqueL1Tx :: opaqueTxs
    /\ PayloadAttributes.SuggestedFeeRecipient attrs = common.ZeroAddress
    /\ (userDeposits = [] ->
        PayloadAttributes.Transactions attrs = [opaqueL1Tx]).
Proof.
  unfold DeriveBlockInputs.
  destruct (CheckReceipts DeriveSha block receipts); cbn [negb];
    [|discriminate].
  destruct (DeriveL1InfoDeposit block) as [p|l1Tx]; cbn [bind];
    [discriminate|].
  destruct (MarshalBinary l1Tx) as [p|[opaqueL1Tx [err|]]] eqn:EL;
    cbn [bind snd fst]; try discriminate.
  destruct (DeriveUserDeposits (NumberU64 block) receipts)
    as [userDeposits [err|]] eqn:EU; [discriminate|].
  destruct (encode_user_txs MarshalBinary 0 userDeposits ([] ++ [opaqueL1Tx]))
    as [p|[encodedTxs|err]] eqn:EE; cbn [bind]; try discriminate.
  intros [= <-].
  destruct (encode_user_txs_Ok _ _ _ _ EE) as (opaqueTxs & -> & HF).
  exists {| PayloadAttributes.Timestamp := Time block;
            PayloadAttributes.Random := MixDigest block;
            PayloadAttributes.SuggestedFeeRecipient := common.ZeroAddress;
            PayloadAttributes.Transactions :=
              ([] ++ [opaqueL1Tx]) ++ opaqueTxs |},
    l1Tx, opaqueL1Tx, userDeposits, opaqueTxs.
  repeat split; try assumption; try reflexivity.
  intros ->. inversion HF. reflexivity.
Qed.

End BlockInputsProperties.

(** C5. When the receipts check fails, [DeriveBlockInputs] returns the
    [IntegrityMismatch] error and nothing else happens: the result is the
    same whatever the encoder would do (panic included), whatever the logs
    hold and whether or not the block has a base fee; and on every failure
    path the attributes returned are nil. *)
Theorem DeriveBlockInputs_fails_fast
  (DeriveSha : list Receipt.t -> common.Hash)
  {B : Type} `{BlockInput B} (block : B) (receipts : list Receipt.t) :
  (CheckReceipts DeriveSha block receipts = false ->
   IntegrityMismatch (ErrReceiptsRoot (GetReceiptHash block))
   /\ forall MarshalBinary,
       DeriveBlockInputs DeriveSha MarshalBinary block receipts
       = Ret (None, Some (ErrReceiptsRoot (GetReceiptHash block))))
  /\ (forall MarshalBinary res err,
         DeriveBlockInputs DeriveSha MarshalBinary block receipts
         = Ret (res, Some err) ->
         res = None).
Proof.
  split.
  - intros Hcheck. split; [exact I|]. intros MarshalBinary.
    unfold DeriveBlockInputs. rewrite Hcheck. reflexivity.
  - intros MarshalBinary res err. unfold DeriveBlockInputs.
    destruct (CheckReceipts DeriveSha block receipts); cbn [negb];
      [|intros [= <- _]; reflexivity].
    destruct (DeriveL1InfoDeposit block) as [p|l1Tx]; cbn [bind];
      [discriminate|].
    destruct (MarshalBinary l1Tx) as [p|[opaqueL1Tx [e|]]];
      cbn [bind snd fst]; try discriminate;
      [intros [= <- _]; reflexivity|].
    destruct (DeriveUserDeposits (NumberU64 block) receipts)
      as [userDeposits [e|]]; [intros [= <- _]; reflexivity|].
    destruct (encode_user_txs MarshalBinary 0 userDeposits ([] ++ [opaqueL1Tx]))
      as [p|[encodedTxs|e]]; cbn [bind]; try discriminate.
    intros [= <- _]. reflexivity.
Qed.

Lemma DeriveBlockInputs_fails_fast_witness :
  DeriveBlockInputs Sample.digest Sample.encode_panics
    Sample.pre_london_block Sample.bad_receipts
  = Ret (None, Some (ErrReceiptsRoot (GetReceiptHash Sample.pre_london_block))).
Proof.
  refine (proj2 (proj1 (@DeriveBlockInputs_fails_fast Sample.digest _
                          Sample.Header_BlockInput Sample.pre_london_block
                          Sample.bad_receipts) _) Sample.encode_panics).
  vm_compute. reflexivity.
Defined.

Example Sample_block_inputs :
  DeriveBlockInputs Sample.digest Sample.encode
    Sample.london_block Sample.receipts
  = Ret (Some {| PayloadAttributes.Timestamp := 1000;
                 PayloadAttributes.Random := repeat x11 32;
                 PayloadAttributes.SuggestedFeeRecipient := repeat x00 20;
                 PayloadAttributes.Transactions :=
                   [ x7e :: repeat x00 8
                       ++ [x8c; x89; xc3; x86]
                       ++ [x00; x00; x00; x00; x00; x00; x00; x64]
                       ++ [x00; x00; x00; x00; x00; x00; x03; xe8]
                       ++ repeat x00 31 ++ [x07] ++ repeat xaa 32;
                     x7e :: repeat x00 7 ++ [x01; x01; x02; x03];
                     x7e :: repeat x00 7 ++ [x02; xaa; xbb] ] |},
         None).
Proof. vm_compute. reflexivity. Qed.

(** A block whose receipts hold no deposit yields the one transaction. *)
Example Sample_block_without_deposits :
  option_map (fun attrs => List.length (PayloadAttributes.Transactions attrs))
    (match DeriveBlockInputs Sample.digest Sample.encode
             (Sample.header (Some 7) Sample.quiet_receipts)
             Sample.quiet_receipts with
     | Ret (attrs, None) => attrs
     | _ => None
     end)
  = Some 1%nat.
Proof. vm_compute. reflexivity. Qed.

Lemma DeriveBlockInputs_transactions_witness :
  exists attrs opaqueL1Tx opaqueTxs,
    DeriveBlockInputs Sample.digest Sample.encode
      Sample.london_block Sample.receipts = Ret (Some attrs, None)
    /\ PayloadAttributes.Transactions attrs = opaqueL1Tx :: opaqueTxs
    /\ PayloadAttributes.SuggestedFeeRecipient attrs = common.ZeroAddress.
Proof.
  destruct (@DeriveBlockInputs_transactions Sample.digest Sample.encode _
              Sample.Header_BlockInput Sample.london_block Sample.receipts
              _ Sample_block_inputs)
    as (attrs & l1Tx & opaqueL1Tx & userDeposits & opaqueTxs
        & Hres & _ & _ & _ & _ & Htx & Hfee & _).
  exists attrs, opaqueL1Tx, opaqueTxs.
  rewrite Sample_block_inputs, Hres. repeat split; assumption.
Defined.

(* ================================================================== *)
(** * Further properties of the code *)

(** ** Addresses *)

Lemma length_BytesToAddress (b : bytes) :
  List.length (common.BytesToAddress b) = 20%nat.
Proof.
  unfold common.BytesToAddress, common.AddressLength.
  destruct (Nat.ltb_spec 20 (List.length b)).
  - rewrite length_app, repeat_length, length_skipn. lia.
  - rewrite length_app, repeat_length. lia.
Qed.

Lemma BytesToAddress_20 (b : bytes) :
  List.length b = 20%nat -> common.BytesToAddress b = b.
Proof.
  intros Hb. unfold common.BytesToAddress, common.AddressLength.
  rewrite Hb. change (20 <? 20)%nat with false. cbv iota.
  rewrite Hb. reflexivity.
Qed.

(** ** What a successful decode returns *)

(** X1. Every deposit the decoder returns carries the height and the index
    it was called with, 20-byte addresses, a value below 2^256, a mint that
    is absent or positive and below 2^256, a gas limit below 2^64, and data
    no longer than the payload past its six fields. *)
Theorem UnmarshalLogEvent_output_ranges
  (blockNum txIndex : Z) (ev : Log.t) (dep : DepositTx.t) :
  UnmarshalLogEvent blockNum txIndex ev = Ok dep ->
  DepositTx.BlockHeight dep = blockNum
  /\ DepositTx.TransactionIndex dep = txIndex
  /\ List.length (DepositTx.From dep) = 20%nat
  /\ (forall to, DepositTx.To dep = Some to -> List.length to = 20%nat)
  /\ 0 <= DepositTx.Value dep < 2 ^ 256
  /\ (forall mint, DepositTx.Mint dep = Some mint -> 0 < mint < 2 ^ 256)
  /\ 0 <= DepositTx.Gas dep < 2 ^ 64
  /\ (List.length (DepositTx.Data dep)
      <= List.length (Log.Data ev) - 192)%nat.
Proof.
  intros H. apply UnmarshalLogEvent_Ok_iff in H.
  destruct H as (_ & _ & Hlen & Hgas & _ & _ & _ & ->).
  cbn [DepositTx.BlockHeight DepositTx.TransactionIndex DepositTx.From
       DepositTx.To DepositTx.Value DepositTx.Mint DepositTx.Gas
       DepositTx.Data].
  pose proof (field_range (Log.Data ev) 0) as R0.
  pose proof (field_range (Log.Data ev) 1) as R1.
  pose proof (field_range (Log.Data ev) 2) as R2.
  conjs; try reflexivity; try lia.
  - apply length_BytesToAddress.
  - intros to.
    destruct (Byte.eqb (index (Log.Data ev) 127) x00); [|discriminate].
    intros [= <-]. apply length_BytesToAddress.
  - intros mint.
    destruct (Z.eqb_spec (field (Log.Data ev) 1) 0); [discriminate|].
    intros [= <-]. lia.
  - unfold two64 in Hgas. exact Hgas.
  - unfold slice. rewrite length_firstn, length_skipn.
    change (Z.to_nat 192) with 192%nat. lia.
Qed.

Lemma UnmarshalLogEvent_output_ranges_witness :
  exists dep,
    UnmarshalLogEvent 100 1 Sample.deposit_log = Ok dep
    /\ List.length (DepositTx.From dep) = 20%nat
    /\ 0 <= DepositTx.Gas dep < 2 ^ 64.
Proof.
  eexists. split; [vm_compute; reflexivity|].
  refine ((fun H => conj (proj1 (proj2 (proj2 H)))
                         (proj1 (proj2 (proj2 (proj2 (proj2 (proj2 (proj2 H))))))))
            (UnmarshalLogEvent_output_ranges 100 1 Sample.deposit_log _ _)).
  vm_compute. reflexivity.
Defined.

(** ** The order of the decoder's checks *)

(** X2. The decoder reports the first check that fails, in the order topic
    count, event selector, payload length, gas, data offset, data length
    beyond 64 bits, data length beyond the payload; each error carries the
    offending values, and a later defect is not looked at. *)
Theorem UnmarshalLogEvent_error_order (blockNum txIndex : Z) (ev : Log.t) :
  fits_int (List.length (Log.Data ev)) ->
  let d := Log.Data ev in
  let ts := Log.Topics ev in
  let r := UnmarshalLogEvent blockNum txIndex ev in
  let topics_ok :=
    List.length ts = 3%nat /\ nth 0 ts [] = DepositEventABIHash in
  (List.length ts <> 3%nat -> r = Err ErrTopicCount)
  /\ (List.length ts = 3%nat -> nth 0 ts [] <> DepositEventABIHash ->
      r = Err (ErrEventSelector (nth 0 ts []) DepositEventABIHash))
  /\ (topics_ok -> Z.of_nat (List.length d) < 192 ->
      r = Err (ErrDataTooSmall (Z.of_nat (List.length d)) d))
  /\ (topics_ok -> 192 <= Z.of_nat (List.length d) ->
      two64 <= field d 2 ->
      r = Err (ErrBadGas (firstn 32 (skipn 64 d))))
  /\ (topics_ok -> 192 <= Z.of_nat (List.length d) -> field d 2 < two64 ->
      field d 4 = 128 ->
      r = Err (ErrDataOffset 128))
  /\ (topics_ok -> 192 <= Z.of_nat (List.length d) -> field d 2 < two64 ->
      field d 4 <> 128 -> two64 <= field d 5 ->
      r = Err (ErrDataTooLarge (field d 5)))
  /\ (topics_ok -> 192 <= Z.of_nat (List.length d) -> field d 2 < two64 ->
      field d 4 <> 128 -> field d 5 < two64 ->
      remaining d < field d 5 ->
      r = Err (ErrDataLenTooLong (field d 5) (remaining d))).
Proof.
  intros Hfit. cbv zeta.
  destruct (UnmarshalLogEvent_paths blockNum txIndex ev Hfit)
    as (P1 & P2 & P3 & P4 & P5 & P6 & P7 & _).
  conjs.
  - exact P1.
  - exact P2.
  - intros (Ha & Hb). exact (P3 Ha Hb).
  - intros (Ha & Hb). exact (P4 Ha Hb).
  - intros (Ha & Hb). exact (P5 Ha Hb).
  - intros (Ha & Hb). exact (P6 Ha Hb).
  - intros (Ha & Hb). exact (P7 Ha Hb).
Qed.

(** A log with a gas field beyond 64 bits and an offset field of 128 fails on
    the gas: the offset is not reached. *)
Lemma UnmarshalLogEvent_error_order_witness :
  UnmarshalLogEvent 100 1
    (with_data Sample.offset128_log
       (Sample.payload 5 7 (2 ^ 64) 0 128 3 [x01; x02; x03]))
  = Err (ErrBadGas (be_encode 32 (2 ^ 64))).
Proof.
  refine (proj1 (proj2 (proj2 (proj2
            (UnmarshalLogEvent_error_order 100 1
               (with_data Sample.offset128_log
                  (Sample.payload 5 7 (2 ^ 64) 0 128 3 [x01; x02; x03]))
               _)))) _ _ _).
  - unfold fits_int, MaxInt. vm_compute. discriminate.
  - split; vm_compute; reflexivity.
  - vm_compute. discriminate.
  - vm_compute. discriminate.
Defined.

(** ** Decoding the event as the comment declares it *)

(** The fields, the flag byte and the tail of a payload given as six words
    and a tail. *)
Lemma six_words (w0 w1 w2 w3 w4 w5 tail : bytes) :
  List.length w0 = 32%nat -> List.length w1 = 32%nat ->
  List.length w2 = 32%nat -> List.length w3 = 32%nat ->
  List.length w4 = 32%nat -> List.length w5 = 32%nat ->
  let d := w0 ++ w1 ++ w2 ++ w3 ++ w4 ++ w5 ++ tail in
  List.length d = (192 + List.length tail)%nat
  /\ field d 0 = SetBytes w0 /\ field d 1 = SetBytes w1
  /\ field d 2 = SetBytes w2 /\ field d 4 = SetBytes w4
  /\ field d 5 = SetBytes w5
  /\ index d 127 = nth 31 w3 x00
  /\ skipn 192 d = tail.
Proof.
  intros H0 H1 H2 H3 H4 H5 d. subst d.
  assert (S1 : forall r, skipn 32 (w0 ++ r) = r)
    by (intros; apply skipn_app_eq; assumption).
  assert (S2 : forall r, skipn 64 (w0 ++ w1 ++ r) = r).
  { intros. change 64%nat with (32 + 32)%nat.
    rewrite <- skipn_skipn, S1. apply skipn_app_eq; assumption. }
  assert (S3 : forall r, skipn 96 (w0 ++ w1 ++ w2 ++ r) = r).
  { intros. change 96%nat with (32 + 64)%nat.
    rewrite <- skipn_skipn, S2. apply skipn_app_eq; assumption. }
  assert (S4 : forall r, skipn 128 (w0 ++ w1 ++ w2 ++ w3 ++ r) = r).
  { intros. change 128%nat with (32 + 96)%nat.
    rewrite <- skipn_skipn, S3. apply skipn_app_eq; assumption. }
  assert (S5 : forall r, skipn 160 (w0 ++ w1 ++ w2 ++ w3 ++ w4 ++ r) = r).
  { intros. change 160%nat with (32 + 128)%nat.
    rewrite <- skipn_skipn, S4. apply skipn_app_eq; assumption. }
  assert (S6 : forall r,
             skipn 192 (w0 ++ w1 ++ w2 ++ w3 ++ w4 ++ w5 ++ r) = r).
  { intros. change 192%nat with (32 + 160)%nat.
    rewrite <- skipn_skipn, S5. apply skipn_app_eq; assumption. }
  unfold field, index.
  change (32 * 0)%nat with 0%nat. change (32 * 1)%nat with 32%nat.
  change (32 * 2)%nat with 64%nat. change (32 * 4)%nat with 128%nat.
  change (32 * 5)%nat with 160%nat. change (Z.to_nat 127) with 127%nat.
  rewrite S1, S2, S4, S5, S6. cbn [skipn].
  rewrite !firstn_app_eq by assumption.
  conjs; try reflexivity.
  - rewrite !length_app. lia.
  - assert (Hn : forall (l : bytes) n m, nth m (skipn n l) x00 = nth (n + m) l x00).
    { intros l n. revert l. induction n as [|n IH]; intros [|x l] m;
        cbn [skipn nth Nat.add]; try reflexivity.
      - destruct m; reflexivity.
      - apply IH. }
    change 127%nat with (96 + 31)%nat. rewrite <- Hn, S3.
    apply app_nth1. lia.
Qed.

Lemma last_byte_be_encode (n : nat) (z : Z) :
  nth n (be_encode (S n) z) x00 = z2b z.
Proof.
  cbn [be_encode]. rewrite app_nth2 by (rewrite length_be_encode; lia).
  rewrite length_be_encode, Nat.sub_diag. reflexivity.
Qed.

(** X3. The decoder on the event as its comment declares it.  The log the
    contract ABI gives for [TransactionDeposited] with 20-byte addresses, a
    mint and a value below 2^256 and a gas limit below 2^64 decodes, with
    the sender, the recipient (absent on a creation), the gas limit and the
    data, without their padding, as emitted; the decoder reads the first
    word as the value and the second as the mint, so the declared [mint]
    comes back as [Value] and the declared [value] as [Mint], absent when
    it is 0. *)
Theorem UnmarshalLogEvent_TransactionDeposited
  (blockNum txIndex : Z) (from to : common.Address) (mint value gasLimit : Z)
  (isCreation : bool) (data : bytes) :
  List.length from = 20%nat -> List.length to = 20%nat ->
  0 <= mint < 2 ^ 256 -> 0 <= value < 2 ^ 256 -> 0 <= gasLimit < 2 ^ 64 ->
  fits_int (List.length
              (Log.Data (TransactionDeposited from to mint value gasLimit
                           isCreation data))) ->
  UnmarshalLogEvent blockNum txIndex
    (TransactionDeposited from to mint value gasLimit isCreation data)
  = Ok {| DepositTx.BlockHeight := blockNum;
          DepositTx.TransactionIndex := txIndex;
          DepositTx.From := from;
          DepositTx.To := if isCreation then None else Some to;
          DepositTx.Mint := if value =? 0 then None else Some value;
          DepositTx.Value := mint;
          DepositTx.Gas := gasLimit;
          DepositTx.Data := data |}.
Proof.
  intros Hfrom Hto Hmint Hvalue Hgas Hfit.
  apply UnmarshalLogEvent_Ok_iff.
  cbn [TransactionDeposited Log.Topics Log.Data] in *.
  set (padding := abi_padding (List.length data)) in *.
  destruct (six_words (be_encode 32 mint) (be_encode 32 value)
              (be_encode 32 gasLimit)
              (be_encode 32 (if isCreation then 1 else 0))
              (be_encode 32 (5 * 32))
              (be_encode 32 (Z.of_nat (List.length data)))
              (data ++ padding))
    as (Hl & F0 & F1 & F2 & F4 & F5 & Fi & Ft);
    try apply length_be_encode.
  cbv zeta in *.
  unfold fits_int, MaxInt in Hfit. rewrite Hl in Hfit.
  rewrite (length_app data padding) in Hl, Hfit.
  assert (P256 : 256 ^ Z.of_nat 32 = 2 ^ 256) by reflexivity.
  rewrite F0, F1, F2, F4, F5, Fi, Hl.
  rewrite !SetBytes_be_encode_small by (rewrite P256; lia).
  rewrite last_byte_be_encode.
  assert (Hsub : sub64 (Z.of_nat (192 + (List.length data + List.length padding))) 192
                 = Z.of_nat (List.length data + List.length padding)).
  { unfold sub64, two64. rewrite Z.mod_small; lia. }
  rewrite Hsub.
  conjs; try reflexivity; try (unfold two64; lia).
  f_equal.
  - cbn [nth]. rewrite skipn_app_eq by apply repeat_length.
    symmetry. apply BytesToAddress_20, Hfrom.
  - cbn [nth]. rewrite skipn_app_eq by apply repeat_length.
    rewrite (BytesToAddress_20 to Hto).
    destruct isCreation; reflexivity.
  - unfold slice, add64, two64. rewrite Z.mod_small by lia.
    change (Z.to_nat 192) with 192%nat. rewrite Ft.
    replace (Z.to_nat (192 + Z.of_nat (List.length data) - 192))
      with (List.length data) by lia.
    symmetry. apply firstn_app_eq. reflexivity.
Qed.

(** A deposit emitted with mint 7 and value 5 is decoded with value 7 and
    mint 5. *)
Lemma UnmarshalLogEvent_TransactionDeposited_witness :
  UnmarshalLogEvent 100 1
    (TransactionDeposited Sample.alice Sample.bob 7 5 21000 false
       [x01; x02; x03])
  = Ok {| DepositTx.BlockHeight := 100;
          DepositTx.TransactionIndex := 1;
          DepositTx.From := Sample.alice;
          DepositTx.To := Some Sample.bob;
          DepositTx.Mint := Some 5;
          DepositTx.Value := 7;
          DepositTx.Gas := 21000;
          DepositTx.Data := [x01; x02; x03] |}.
Proof.
  refine (UnmarshalLogEvent_TransactionDeposited 100 1 Sample.alice Sample.bob
            7 5 21000 false [x01; x02; x03]
            eq_refl eq_refl _ _ _ _).
  - lia.
  - lia.
  - lia.
  - unfold fits_int, MaxInt. vm_compute. discriminate.
Defined.

(** ** Bytes the decoder does not read *)

Lemma field_app (d extra : bytes) (k : nat) :
  (32 * k + 32 <= List.length d)%nat -> field (d ++ extra) k = field d k.
Proof.
  intros H. unfold field.
  rewrite skipn_app_le by lia.
  rewrite firstn_app_le by (rewrite length_skipn; lia). reflexivity.
Qed.

(** X4. What follows the declared data is not read: a log that decodes
    keeps decoding, to the same deposit, when any bytes are appended to its
    payload. *)
Theorem UnmarshalLogEvent_ignores_trailing_bytes
  (blockNum txIndex : Z) (ev : Log.t) (dep : DepositTx.t) (extra : bytes) :
  fits_int (List.length (Log.Data ev ++ extra)) ->
  UnmarshalLogEvent blockNum txIndex ev = Ok dep ->
  UnmarshalLogEvent blockNum txIndex (with_data ev (Log.Data ev ++ extra))
  = Ok dep.
Proof.
  intros Hfit H. apply UnmarshalLogEvent_Ok_iff in H.
  destruct H as (Hts & Hsel & Hlen & Hgas & Hoff & Hdl & Hrem & ->).
  apply UnmarshalLogEvent_Ok_iff.
  cbn [with_data Log.Topics Log.Data].
  set (d := Log.Data ev) in *.
  unfold fits_int, MaxInt in Hfit. rewrite length_app in Hfit.
  rewrite !field_app by lia.
  assert (Hs : sub64 (Z.of_nat (List.length d)) 192
               = Z.of_nat (List.length d) - 192)
    by (unfold sub64, two64; apply Z.mod_small; lia).
  assert (Hs' : sub64 (Z.of_nat (List.length (d ++ extra))) 192
                = Z.of_nat (List.length (d ++ extra)) - 192)
    by (unfold sub64, two64; rewrite length_app; apply Z.mod_small; lia).
  rewrite Hs in Hrem. rewrite Hs'.
  pose proof (field_range d 5) as R5.
  conjs; try assumption; try (rewrite length_app; lia).
  f_equal.
  - unfold index. change (Z.to_nat 127) with 127%nat.
    rewrite app_nth1 by lia. reflexivity.
  - unfold slice, add64, two64. rewrite Z.mod_small by lia.
    change (Z.to_nat 192) with 192%nat.
    rewrite skipn_app_le by lia.
    rewrite firstn_app_le by (rewrite length_skipn; lia). reflexivity.
Qed.

Lemma UnmarshalLogEvent_ignores_trailing_bytes_witness :
  UnmarshalLogEvent 100 1
    (with_data Sample.deposit_log
       (Log.Data Sample.deposit_log ++ [xde; xad; xbe; xef]))
  = Ok {| DepositTx.BlockHeight := 100;
          DepositTx.TransactionIndex := 1;
          DepositTx.From := Sample.alice;
          DepositTx.To := Some Sample.bob;
          DepositTx.Mint := Some 7;
          DepositTx.Value := 5;
          DepositTx.Gas := 21000;
          DepositTx.Data := [x01; x02; x03] |}.
Proof.
  refine (UnmarshalLogEvent_ignores_trailing_bytes 100 1 Sample.deposit_log
            _ [xde; xad; xbe; xef] _ _).
  - unfold fits_int, MaxInt. vm_compute. discriminate.
  - vm_compute. reflexivity.
Defined.

(** X5. The 12 bytes that pad an indexed address are not checked: with
    any other 12 bytes in front of the addresses in topics 1 and 2 the
    result, deposit or error, is the same. *)
Theorem UnmarshalLogEvent_ignores_topic_padding
  (blockNum txIndex : Z) (ev : Log.t) (t0 t1 t2 : common.Hash)
  (p1 p2 : bytes) :
  Log.Topics ev = [t0; t1; t2] ->
  List.length p1 = 12%nat -> List.length p2 = 12%nat ->
  UnmarshalLogEvent blockNum txIndex
    (with_topics ev [t0; p1 ++ skipn 12 t1; p2 ++ skipn 12 t2])
  = UnmarshalLogEvent blockNum txIndex ev.
Proof.
  intros Hts H1 H2. rewrite !UnmarshalLogEvent_eq. cbv zeta.
  cbn [with_topics Log.Topics Log.Data]. rewrite Hts.
  cbn [List.length nth].
  rewrite !skipn_app_eq by assumption. reflexivity.
Qed.

Lemma UnmarshalLogEvent_ignores_topic_padding_witness :
  UnmarshalLogEvent 100 1
    (with_topics Sample.deposit_log
       [DepositEventABIHash;
        repeat xff 12 ++ skipn 12 (Sample.topic_of Sample.alice);
        repeat xee 12 ++ skipn 12 (Sample.topic_of Sample.bob)])
  = UnmarshalLogEvent 100 1 Sample.deposit_log.
Proof.
  exact (UnmarshalLogEvent_ignores_topic_padding 100 1 Sample.deposit_log
           DepositEventABIHash (Sample.topic_of Sample.alice)
           (Sample.topic_of Sample.bob) (repeat xff 12) (repeat xee 12)
           eq_refl eq_refl eq_refl).
Defined.

Lemma nth_after_skipn (l : bytes) (n m : nat) :
  nth m (skipn n l) x00 = nth (n + m) l x00.
Proof.
  revert l; induction n as [|n IH]; intros [|x l];
    cbn [skipn nth Nat.add]; try reflexivity.
  - destruct m; reflexivity.
  - apply IH.
Qed.

(** Overwriting bytes 96 to 127 of a payload changes nothing the decoder
    reads. *)
Lemma patch_flag (a b b' c : bytes) :
  List.length a = 96%nat -> List.length b = 31%nat -> List.length b' = 31%nat ->
  List.length (a ++ b' ++ c) = List.length (a ++ b ++ c)
  /\ field (a ++ b' ++ c) 0 = field (a ++ b ++ c) 0
  /\ field (a ++ b' ++ c) 1 = field (a ++ b ++ c) 1
  /\ field (a ++ b' ++ c) 2 = field (a ++ b ++ c) 2
  /\ field (a ++ b' ++ c) 4 = field (a ++ b ++ c) 4
  /\ field (a ++ b' ++ c) 5 = field (a ++ b ++ c) 5
  /\ index (a ++ b' ++ c) 127 = index (a ++ b ++ c) 127
  /\ skipn 192 (a ++ b' ++ c) = skipn 192 (a ++ b ++ c).
Proof.
  intros Ha Hb Hb'.
  assert (Hlow : forall k r, (k <= 2)%nat ->
            field (a ++ r) k = SetBytes (firstn 32 (skipn (32 * k) a))).
  { intros k r Hk. unfold field.
    rewrite skipn_app_le by lia.
    rewrite firstn_app_le by (rewrite length_skipn; lia). reflexivity. }
  assert (Hhigh : forall m x, List.length x = 31%nat ->
            skipn (m + 127) (a ++ x ++ c) = skipn m c).
  { intros m x Hx. replace (m + 127)%nat with ((m + 31) + 96)%nat by lia.
    rewrite (skipn_past 96 (m + 31) a _ Ha). apply skipn_past, Hx. }
  conjs.
  - rewrite !length_app. lia.
  - rewrite !Hlow by lia. reflexivity.
  - rewrite !Hlow by lia. reflexivity.
  - rewrite !Hlow by lia. reflexivity.
  - unfold field. change (32 * 4)%nat with (1 + 127)%nat.
    rewrite !Hhigh by assumption. reflexivity.
  - unfold field. change (32 * 5)%nat with (33 + 127)%nat.
    rewrite !Hhigh by assumption. reflexivity.
  - unfold index. change (Z.to_nat 127) with (127 + 0)%nat.
    rewrite <- !nth_after_skipn.
    change 127%nat with (0 + 127)%nat.
    rewrite !Hhigh by assumption. reflexivity.
  - change 192%nat with (65 + 127)%nat.
    rewrite !Hhigh by assumption. reflexivity.
Qed.

(** X6. Of the creation-flag field the last byte alone is read: a log that
    decodes keeps decoding, to the same deposit, when the other 31 bytes of
    the field are overwritten, so that a flag field which is not zero as a
    number still gives a call when its last byte is zero. *)
Theorem UnmarshalLogEvent_reads_one_flag_byte
  (blockNum txIndex : Z) (ev : Log.t) (dep : DepositTx.t) (hi : bytes) :
  List.length hi = 31%nat ->
  UnmarshalLogEvent blockNum txIndex ev = Ok dep ->
  UnmarshalLogEvent blockNum txIndex (with_flag_high_bytes ev hi) = Ok dep.
Proof.
  intros Hhi H. apply UnmarshalLogEvent_Ok_iff in H.
  destruct H as (Hts & Hsel & Hlen & Hgas & Hoff & Hdl & Hrem & ->).
  apply UnmarshalLogEvent_Ok_iff.
  cbn [with_flag_high_bytes with_data Log.Topics Log.Data].
  set (d := Log.Data ev) in *.
  assert (Hd : d = firstn 96 d ++ firstn 31 (skipn 96 d) ++ skipn 127 d).
  { change 127%nat with (31 + 96)%nat. rewrite <- (skipn_skipn 31 96 d).
    rewrite (firstn_skipn 31), (firstn_skipn 96). reflexivity. }
  generalize (patch_flag (firstn 96 d) (firstn 31 (skipn 96 d)) hi
                (skipn 127 d)).
  rewrite <- Hd. intros P.
  destruct P as (Pl & P0 & P1 & P2 & P4 & P5 & Pi & Ps);
    [rewrite length_firstn; lia
    |rewrite length_firstn, length_skipn; lia
    |exact Hhi|].
  rewrite Pl, P0, P1, P2, P4, P5, Pi.
  conjs; try assumption.
  unfold slice. change (Z.to_nat 192) with 192%nat. rewrite Ps. reflexivity.
Qed.

(** With [ff] in the 31 high bytes of the flag field the deposit is still a
    call to the recipient. *)
Lemma UnmarshalLogEvent_reads_one_flag_byte_witness :
  UnmarshalLogEvent 100 1
    (with_flag_high_bytes Sample.deposit_log (repeat xff 31))
  = Ok {| DepositTx.BlockHeight := 100;
          DepositTx.TransactionIndex := 1;
          DepositTx.From := Sample.alice;
          DepositTx.To := Some Sample.bob;
          DepositTx.Mint := Some 7;
          DepositTx.Value := 5;
          DepositTx.Gas := 21000;
          DepositTx.Data := [x01; x02; x03] |}.
Proof.
  refine (UnmarshalLogEvent_reads_one_flag_byte 100 1 Sample.deposit_log
            _ (repeat xff 31) eq_refl _).
  vm_compute. reflexivity.
Defined.

(** ** The user deposits as a function of the kept logs *)

Lemma scan_logs_app (height : Z) (xs ys : list Log.t)
  (out : list DepositTx.t) :
  scan_logs height (xs ++ ys) out
  = match scan_logs height xs out with
    | Err err => Err err
    | Ok out' => scan_logs height ys out'
    end.
Proof.
  revert out; induction xs as [|x xs IH]; intros out; [reflexivity|].
  cbn [app scan_logs].
  destruct (bytes_eqb (Log.Address x) DepositContractAddr); [|apply IH].
  destruct (UnmarshalLogEvent height _ x); [apply IH | reflexivity].
Qed.

Lemma scan_logs_filter (height : Z) (logs : list Log.t)
  (out : list DepositTx.t) :
  scan_logs height
    (filter (fun log => bytes_eqb (Log.Address log) DepositContractAddr) logs)
    out
  = scan_logs height logs out.
Proof.
  revert out; induction logs as [|log logs IH]; intros out; [reflexivity|].
  cbn [filter scan_logs].
  destruct (bytes_eqb (Log.Address log) DepositContractAddr) eqn:E;
    [|apply IH].
  cbn [scan_logs]. rewrite E.
  destruct (UnmarshalLogEvent height _ log); [apply IH | reflexivity].
Qed.

(** The two loops are the inner loop run over the kept logs. *)
Lemma scan_receipts_kept (height : Z) (receipts : list Receipt.t)
  (out : list DepositTx.t) :
  scan_receipts height receipts out
  = scan_logs height (keptLogs receipts) out.
Proof.
  revert out; induction receipts as [|rec receipts IH]; intros out;
    [reflexivity|].
  cbn [scan_receipts keptLogs flat_map]. fold (keptLogs receipts).
  destruct (Receipt.Status rec =? ReceiptStatusSuccessful); cbn [negb].
  - rewrite scan_logs_app, scan_logs_filter.
    destruct (scan_logs height (Receipt.Logs rec) out); [apply IH | reflexivity].
  - apply IH.
Qed.

Lemma scan_logs_all_decode (height : Z) (logs : list Log.t)
  (out : list DepositTx.t) :
  Forall (fun ev => exists dep, UnmarshalLogEvent height 0 ev = Ok dep) logs ->
  exists out', scan_logs height logs out = Ok out'.
Proof.
  intros HF. revert out; induction HF as [|ev logs (dep & Hd) _ IH];
    intros out; cbn [scan_logs]; [eauto|].
  destruct (bytes_eqb (Log.Address ev) DepositContractAddr); [|apply IH].
  destruct (UnmarshalLogEvent_Ok_any height 0 height
              (add64 (Z.of_nat (List.length out)) 1) ev dep Hd) as (d' & ->).
  apply IH.
Qed.

(** X7. The receipts count only through their kept logs: two lists of
    receipts with the same kept logs (those of the deposit contract in the
    successful receipts, in order) give the same deposits or the same
    error, however the logs are spread over receipts and whatever other
    logs and failed receipts there are. *)
Theorem DeriveUserDeposits_kept_logs_only (height : Z)
  (receipts receipts' : list Receipt.t) :
  keptLogs receipts = keptLogs receipts' ->
  DeriveUserDeposits height receipts = DeriveUserDeposits height receipts'.
Proof.
  intros Hk. unfold DeriveUserDeposits.
  rewrite !scan_receipts_kept, Hk. reflexivity.
Qed.

Lemma DeriveUserDeposits_kept_logs_only_witness :
  DeriveUserDeposits 100 Sample.receipts
  = DeriveUserDeposits 100
      [ {| Receipt.Status := 1;
           Receipt.Logs := [Sample.deposit_log; Sample.creation_log] |} ].
Proof.
  refine (DeriveUserDeposits_kept_logs_only 100 Sample.receipts _ _).
  vm_compute. reflexivity.
Defined.

(** X8. [DeriveUserDeposits] returns without error exactly when every
    kept log decodes; a malformed log of another contract or of a failed
    receipt does no harm. *)
Theorem DeriveUserDeposits_succeeds_iff (height : Z)
  (receipts : list Receipt.t) :
  snd (DeriveUserDeposits height receipts) = None
  <-> (forall ev, In ev (keptLogs receipts) ->
                  exists dep, UnmarshalLogEvent height 0 ev = Ok dep).
Proof.
  unfold DeriveUserDeposits. split.
  - intros Hok ev Hin.
    pose proof (scan_receipts_result height receipts []) as HR.
    destruct (scan_receipts height receipts []); [|discriminate].
    rewrite Forall_forall in HR. exact (HR ev Hin 0).
  - intros Hall. rewrite scan_receipts_kept.
    destruct (scan_logs_all_decode height (keptLogs receipts) [])
      as (out & ->); [apply Forall_forall, Hall | reflexivity].
Qed.

(** ** Receipts taken in two parts *)

Lemma decode_from_shift (height i n : Z) (logs : list Log.t) :
  decode_from height (i + n) logs
  = match decode_from height i logs with
    | Err err => Err err
    | Ok deps => Ok (map (add_index n) deps)
    end.
Proof.
  revert i; induction logs as [|ev logs IH]; intros i; [reflexivity|].
  cbn [decode_from].
  rewrite (UnmarshalLogEvent_context height (i + n)),
    (UnmarshalLogEvent_context height i).
  destruct (UnmarshalLogEvent 0 0 ev) as [dep|err]; [|reflexivity].
  replace (i + n + 1) with (i + 1 + n) by lia. rewrite IH.
  destruct (decode_from height (i + 1) logs); reflexivity.
Qed.

Lemma DeriveUserDeposits_decode (height : Z) (receipts : list Receipt.t) :
  fits_int (List.length (keptLogs receipts)) ->
  DeriveUserDeposits height receipts
  = match decode_from height 1 (keptLogs receipts)
          return (list DepositTx.t * option error) with
    | Ok deps => (deps, None)
    | Err err => ([], Some err)
    end.
Proof.
  intros Hfit. unfold DeriveUserDeposits.
  rewrite scan_receipts_decode
    by (unfold fits_int, MaxInt, two64 in *; cbn [List.length]; lia).
  cbn [List.length Z.of_nat Z.add app].
  destruct (decode_from height 1 (keptLogs receipts)); reflexivity.
Qed.

Lemma keptLogs_app (xs ys : list Receipt.t) :
  keptLogs (xs ++ ys) = keptLogs xs ++ keptLogs ys.
Proof. unfold keptLogs. apply flat_map_app. Qed.

(** X9. Receipts can be taken in two parts: the deposits of [xs ++ ys] are
    those of [xs] followed by those of [ys] with their indices moved up by
    the number of deposits of [xs]; an error of [xs] comes first, then one
    of [ys]. *)
Theorem DeriveUserDeposits_app (height : Z) (xs ys : list Receipt.t) :
  fits_int (List.length (keptLogs (xs ++ ys))) ->
  DeriveUserDeposits height (xs ++ ys)
  = match DeriveUserDeposits height xs with
    | (_, Some err) => ([], Some err)
    | (out, None) =>
        match DeriveUserDeposits height ys with
        | (_, Some err) => ([], Some err)
        | (out', None) =>
            (out ++ map (add_index (Z.of_nat (List.length out))) out', None)
        end
    end.
Proof.
  intros Hfit.
  assert (Hx : fits_int (List.length (keptLogs xs)))
    by (unfold fits_int in *; rewrite keptLogs_app, length_app in Hfit; lia).
  assert (Hy : fits_int (List.length (keptLogs ys)))
    by (unfold fits_int in *; rewrite keptLogs_app, length_app in Hfit; lia).
  rewrite !DeriveUserDeposits_decode by assumption.
  rewrite keptLogs_app, decode_from_app.
  destruct (decode_from height 1 (keptLogs xs)) as [ds|err] eqn:Ex;
    [|reflexivity].
  rewrite decode_from_shift, (length_decode_from _ _ _ _ Ex).
  destruct (decode_from height 1 (keptLogs ys)); reflexivity.
Qed.

Lemma DeriveUserDeposits_app_witness :
  DeriveUserDeposits 100 (Sample.receipts ++ Sample.receipts)
  = (fst (DeriveUserDeposits 100 Sample.receipts)
       ++ map (add_index 2) (fst (DeriveUserDeposits 100 Sample.receipts)),
     None).
Proof.
  rewrite (DeriveUserDeposits_app 100 Sample.receipts Sample.receipts)
    by (unfold fits_int, MaxInt; vm_compute; discriminate).
  rewrite Sample_user_deposits. reflexivity.
Defined.

(** ** The L1-info deposit: panics, sign and reading back *)

(** What [DeriveL1InfoDeposit] returns once the base fee is written. *)
Lemma DeriveL1InfoDeposit_Ret {B : Type} `{L1Info B} (block : B) (fee : Z) :
  BaseFee block = Some fee -> Z.abs fee < 2 ^ 256 ->
  List.length (Hash block) = 32%nat ->
  DeriveL1InfoDeposit block
  = Ret {| DepositTx.BlockHeight := NumberU64 block;
           DepositTx.TransactionIndex := 0;
           DepositTx.From := DepositContractAddr;
           DepositTx.To := Some L1InfoPredeployAddr;
           DepositTx.Mint := None;
           DepositTx.Value := 0;
           DepositTx.Gas := 99999999;
           DepositTx.Data :=
             L1InfoFuncBytes4 ++ be_encode 8 (NumberU64 block)
               ++ be_encode 8 (Time block) ++ be_encode 32 (Z.abs fee)
               ++ Hash block |}.
Proof.
  intros Hfee Hrange Hhash. unfold DeriveL1InfoDeposit, FillBytes.
  rewrite Hfee. change (256 ^ Z.of_nat 32) with (2 ^ 256).
  destruct (Z.ltb_spec (Z.abs fee) (2 ^ 256)) as [_|Hge]; [|lia].
  cbn [bind].
  rewrite l1_info_layout;
    rewrite ?length_PutUint64, ?length_be_encode, ?length_L1InfoFuncBytes4;
    try reflexivity; try assumption.
  rewrite !PutUint64_be_encode. reflexivity.
Qed.

(** X10. [DeriveL1InfoDeposit] returns a deposit exactly when the block
    has a base fee whose absolute value is below 2^256: it panics with a nil
    dereference on a nil base fee and with a buffer that is too small on a
    wider one.  The sign of the base fee is dropped: a block with base fee
    [- fee] gives the result of the block with base fee [fee]. *)
Theorem DeriveL1InfoDeposit_panics {B : Type} `{L1Info B} (block : B) :
  (BaseFee block = None ->
   DeriveL1InfoDeposit block = Panic NilDereference)
  /\ (forall fee, BaseFee block = Some fee -> 2 ^ 256 <= Z.abs fee ->
                  DeriveL1InfoDeposit block = Panic BufferTooSmall)
  /\ ((exists dep, DeriveL1InfoDeposit block = Ret dep)
      <-> exists fee, BaseFee block = Some fee /\ Z.abs fee < 2 ^ 256)
  /\ (forall (block' : B) fee,
         BaseFee block = Some fee -> BaseFee block' = Some (- fee) ->
         NumberU64 block' = NumberU64 block -> Time block' = Time block ->
         Hash block' = Hash block ->
         DeriveL1InfoDeposit block' = DeriveL1InfoDeposit block).
Proof.
  assert (Hnil : BaseFee block = None ->
                 DeriveL1InfoDeposit block = Panic NilDereference).
  { intros Hfee. unfold DeriveL1InfoDeposit, FillBytes. rewrite Hfee.
    reflexivity. }
  assert (Hbig : forall fee, BaseFee block = Some fee -> 2 ^ 256 <= Z.abs fee ->
                 DeriveL1InfoDeposit block = Panic BufferTooSmall).
  { intros fee Hfee Hge. unfold DeriveL1InfoDeposit, FillBytes. rewrite Hfee.
    change (256 ^ Z.of_nat 32) with (2 ^ 256).
    destruct (Z.ltb_spec (Z.abs fee) (2 ^ 256)); [lia | reflexivity]. }
  conjs; try assumption.
  - split.
    + intros (dep & Hd). destruct (BaseFee block) as [fee|] eqn:Hfee.
      * exists fee. split; [reflexivity|].
        destruct (Z.lt_ge_cases (Z.abs fee) (2 ^ 256)) as [Hlt|Hge];
          [exact Hlt|].
        rewrite (Hbig fee eq_refl Hge) in Hd. discriminate.
      * rewrite (Hnil eq_refl) in Hd. discriminate.
    + intros (fee & Hfee & Hlt). unfold DeriveL1InfoDeposit, FillBytes.
      rewrite Hfee. change (256 ^ Z.of_nat 32) with (2 ^ 256).
      destruct (Z.ltb_spec (Z.abs fee) (2 ^ 256)); [|lia].
      cbn [bind]. eexists. reflexivity.
  - intros block' fee Hfee Hfee' Hn Ht Hh.
    unfold DeriveL1InfoDeposit, FillBytes.
    rewrite Hfee, Hfee', Hn, Ht, Hh, Z.abs_opp. reflexivity.
Qed.

(** X11. The payload can be read back: for a block with a 64-bit number
    and timestamp, a base fee from 0 below 2^256 and a 32-byte hash, bytes 0
    to 4 of the data are the selector, bytes 4 to 12 and 12 to 20 decode to
    the number and the timestamp, bytes 20 to 52 to the base fee, and bytes
    52 to 84 are the hash; the deposit carries the block number as its
    height. *)
Theorem DeriveL1InfoDeposit_read_back {B : Type} `{L1Info B}
  (block : B) (fee : Z) :
  BaseFee block = Some fee -> 0 <= fee < 2 ^ 256 ->
  0 <= NumberU64 block < 2 ^ 64 -> 0 <= Time block < 2 ^ 64 ->
  List.length (Hash block) = 32%nat ->
  exists dep,
    DeriveL1InfoDeposit block = Ret dep
    /\ DepositTx.BlockHeight dep = NumberU64 block
    /\ slice (DepositTx.Data dep) 0 4 = L1InfoFuncBytes4
    /\ SetBytes (slice (DepositTx.Data dep) 4 12) = NumberU64 block
    /\ SetBytes (slice (DepositTx.Data dep) 12 20) = Time block
    /\ SetBytes (slice (DepositTx.Data dep) 20 52) = fee
    /\ slice (DepositTx.Data dep) 52 84 = Hash block.
Proof.
  intros Hfee Hrange Hnum Htime Hhash.
  rewrite (DeriveL1InfoDeposit_Ret block fee Hfee) by (try assumption; lia).
  rewrite Z.abs_eq by lia.
  eexists. split; [reflexivity|].
  cbn [DepositTx.BlockHeight DepositTx.Data].
  set (sel := L1InfoFuncBytes4).
  set (n8 := be_encode 8 (NumberU64 block)).
  set (t8 := be_encode 8 (Time block)).
  set (f32 := be_encode 32 fee).
  assert (Ls : List.length sel = 4%nat) by apply length_L1InfoFuncBytes4.
  assert (Ln : List.length n8 = 8%nat) by apply length_be_encode.
  assert (Lt : List.length t8 = 8%nat) by apply length_be_encode.
  assert (Lf : List.length f32 = 32%nat) by apply length_be_encode.
  assert (S4 : forall r, skipn 4 (sel ++ r) = r)
    by (intros; apply skipn_app_eq; assumption).
  assert (S12 : forall r, skipn 12 (sel ++ n8 ++ r) = r).
  { intros. change 12%nat with (8 + 4)%nat.
    rewrite <- skipn_skipn, S4. apply skipn_app_eq; assumption. }
  assert (S20 : forall r, skipn 20 (sel ++ n8 ++ t8 ++ r) = r).
  { intros. change 20%nat with (8 + 12)%nat.
    rewrite <- skipn_skipn, S12. apply skipn_app_eq; assumption. }
  assert (S52 : forall r, skipn 52 (sel ++ n8 ++ t8 ++ f32 ++ r) = r).
  { intros. change 52%nat with (32 + 20)%nat.
    rewrite <- skipn_skipn, S20. apply skipn_app_eq; assumption. }
  unfold slice.
  change (Z.to_nat (4 - 0)) with 4%nat. change (Z.to_nat 0) with 0%nat.
  change (Z.to_nat (12 - 4)) with 8%nat. change (Z.to_nat 4) with 4%nat.
  change (Z.to_nat (20 - 12)) with 8%nat. change (Z.to_nat 12) with 12%nat.
  change (Z.to_nat (52 - 20)) with 32%nat. change (Z.to_nat 20) with 20%nat.
  change (Z.to_nat (84 - 52)) with 32%nat. change (Z.to_nat 52) with 52%nat.
  rewrite S4, S12, S20, S52. cbn [skipn].
  rewrite !firstn_app_eq by assumption.
  rewrite <- Hhash, firstn_all.
  unfold n8, t8, f32.
  rewrite !SetBytes_be_encode_small
    by (try change (256 ^ Z.of_nat 8) with (2 ^ 64);
        try change (256 ^ Z.of_nat 32) with (2 ^ 256); lia).
  conjs; reflexivity.
Qed.

Lemma DeriveL1InfoDeposit_read_back_witness :
  exists dep,
    DeriveL1InfoDeposit Sample.london_block = Ret dep
    /\ SetBytes (slice (DepositTx.Data dep) 4 12) = 100
    /\ SetBytes (slice (DepositTx.Data dep) 12 20) = 1000
    /\ SetBytes (slice (DepositTx.Data dep) 20 52) = 7.
Proof.
  destruct (@DeriveL1InfoDeposit_read_back _ Sample.Header_L1Info
              Sample.london_block 7 eq_refl ltac:(lia)
              ltac:(cbn; lia) ltac:(cbn; lia) eq_refl)
    as (dep & Hd & _ & _ & Hn & Ht & Hf & _).
  exists dep. conjs; assumption.
Defined.

(** ** The block inputs: contents, order of the failures, panics *)

Lemma scan_logs_length (height : Z) (logs : list Log.t)
  (out out' : list DepositTx.t) :
  scan_logs height logs out = Ok out' ->
  List.length out'
  = (List.length out
     + List.length
         (filter (fun log => bytes_eqb (Log.Address log) DepositContractAddr)
                 logs))%nat.
Proof.
  revert out; induction logs as [|log logs IH]; intros out;
    cbn [scan_logs filter].
  - intros [= <-]. cbn [List.length]. lia.
  - destruct (bytes_eqb (Log.Address log) DepositContractAddr); [|apply IH].
    destruct (UnmarshalLogEvent height _ log) as [dep|]; [|discriminate].
    intros Hrest. rewrite (IH _ Hrest), length_app. cbn [List.length]. lia.
Qed.

Lemma scan_receipts_length (height : Z) (receipts : list Receipt.t)
  (out out' : list DepositTx.t) :
  scan_receipts height receipts out = Ok out' ->
  List.length out'
  = (List.length out + List.length (keptLogs receipts))%nat.
Proof.
  revert out; induction receipts as [|rec receipts IH]; intros out;
    cbn [scan_receipts keptLogs flat_map].
  - intros [= <-]. cbn [List.length]. lia.
  - fold (keptLogs receipts).
    destruct (Receipt.Status rec =? ReceiptStatusSuccessful); cbn [negb];
      [|apply IH].
    destruct (scan_logs height (Receipt.Logs rec) out) as [mid|] eqn:E;
      [|discriminate].
    intros Hrest. rewrite (IH _ Hrest), (scan_logs_length _ _ _ _ E), length_app.
    lia.
Qed.

Lemma decode_from_indices (height i : Z) (logs : list Log.t)
  (deps : list DepositTx.t) :
  decode_from height i logs = Ok deps ->
  map DepositTx.TransactionIndex deps
  = map (fun k => i + Z.of_nat k) (seq 0 (List.length logs))
  /\ Forall (fun dep => DepositTx.BlockHeight dep = height) deps.
Proof.
  revert i deps; induction logs as [|ev logs IH]; intros i deps;
    cbn [decode_from].
  - intros [= <-]. split; [reflexivity | constructor].
  - destruct (UnmarshalLogEvent height i ev) as [dep|] eqn:E; [|discriminate].
    destruct (decode_from height (i + 1) logs) as [ds|] eqn:Er; [|discriminate].
    intros [= <-]. destruct (IH _ _ Er) as (Hi & Hh).
    destruct (UnmarshalLogEvent_index _ _ _ _ E) as (Hb & Ht).
    split.
    + cbn [map List.length seq]. rewrite Ht, Hi, Z.add_0_r. f_equal.
      rewrite <- seq_shift, map_map. apply map_ext. intros k. lia.
    + constructor; assumption.
Qed.

Section BlockInputsFurther.

Variable DeriveSha : list Receipt.t -> common.Hash.
Variable MarshalBinary : DepositTx.t -> outcome (bytes * option error).

(** What a call that returns without error went through. *)
Lemma DeriveBlockInputs_Ok_inv {B : Type} `{BlockInput B}
  (block : B) (receipts : list Receipt.t)
  (res : option PayloadAttributes.t) :
  DeriveBlockInputs DeriveSha MarshalBinary block receipts = Ret (res, None) ->
  exists l1Tx opaqueL1Tx userDeposits opaqueTxs,
    CheckReceipts DeriveSha block receipts = true
    /\ DeriveL1InfoDeposit block = Ret l1Tx
    /\ MarshalBinary l1Tx = Ret (opaqueL1Tx, None)
    /\ DeriveUserDeposits (NumberU64 block) receipts = (userDeposits, None)
    /\ Forall2 (fun tx opaqueTx => MarshalBinary tx = Ret (opaqueTx, None))
               userDeposits opaqueTxs
    /\ res = Some {| PayloadAttributes.Timestamp := Time block;
                     PayloadAttributes.Random := MixDigest block;
                     PayloadAttributes.SuggestedFeeRecipient :=
                       common.ZeroAddress;
                     PayloadAttributes.Transactions :=
                       opaqueL1Tx :: opaqueTxs |}.
Proof.
  unfold DeriveBlockInputs.
  destruct (CheckReceipts DeriveSha block receipts); cbn [negb];
    [|discriminate].
  destruct (DeriveL1InfoDeposit block) as [p|l1Tx]; cbn [bind];
    [discriminate|].
  destruct (MarshalBinary l1Tx) as [p|[opaqueL1Tx [err|]]] eqn:EL;
    cbn [bind snd fst]; try discriminate.
  destruct (DeriveUserDeposits (NumberU64 block) receipts)
    as [userDeposits [err|]] eqn:EU; [discriminate|].
  destruct (encode_user_txs MarshalBinary 0 userDeposits ([] ++ [opaqueL1Tx]))
    as [p|[encodedTxs|err]] eqn:EE; cbn [bind]; try discriminate.
  intros [= <-].
  destruct (encode_user_txs_Ok MarshalBinary _ _ _ _ EE)
    as (opaqueTxs & -> & HF).
  exists l1Tx, opaqueL1Tx, userDeposits, opaqueTxs.
  conjs; try assumption; reflexivity.
Qed.

(** X12. Attributes are returned only for receipts that pass the check;
    they carry the block's timestamp and its mix digest, and one transaction
    more than there are kept logs. *)
Theorem DeriveBlockInputs_attributes {B : Type} `{BlockInput B}
  (block : B) (receipts : list Receipt.t)
  (res : option PayloadAttributes.t) :
  DeriveBlockInputs DeriveSha MarshalBinary block receipts = Ret (res, None) ->
  exists attrs,
    res = Some attrs
    /\ GetReceiptHash block = DeriveSha receipts
    /\ PayloadAttributes.Timestamp attrs = Time block
    /\ PayloadAttributes.Random attrs = MixDigest block
    /\ List.length (PayloadAttributes.Transactions attrs)
       = S (List.length (keptLogs receipts)).
Proof.
  intros Hres.
  destruct (DeriveBlockInputs_Ok_inv block receipts res Hres)
    as (l1Tx & opaqueL1Tx & userDeposits & opaqueTxs
        & Hc & _ & _ & Hu & HF & ->).
  eexists. split; [reflexivity|].
  cbn [PayloadAttributes.Timestamp PayloadAttributes.Random
       PayloadAttributes.Transactions List.length].
  conjs; try reflexivity.
  - apply bytes_eqb_eq. exact Hc.
  - f_equal. rewrite <- (Forall2_length HF).
    unfold DeriveUserDeposits in Hu.
    destruct (scan_receipts (NumberU64 block) receipts []) as [out|] eqn:E;
      [|discriminate].
    injection Hu as <-. apply (scan_receipts_length _ _ _ _ E).
Qed.

(** X13. The transactions are the encodings of deposits numbered from 0
    without gap, the L1-info deposit first, all with the block number as
    their height. *)
Theorem DeriveBlockInputs_indices {B : Type} `{BlockInput B}
  (block : B) (receipts : list Receipt.t) (attrs : PayloadAttributes.t) :
  fits_int (List.length (keptLogs receipts)) ->
  DeriveBlockInputs DeriveSha MarshalBinary block receipts
  = Ret (Some attrs, None) ->
  exists txs,
    Forall2 (fun tx opaqueTx => MarshalBinary tx = Ret (opaqueTx, None))
            txs (PayloadAttributes.Transactions attrs)
    /\ map DepositTx.TransactionIndex txs
       = map Z.of_nat (seq 0 (List.length txs))
    /\ Forall (fun tx => DepositTx.BlockHeight tx = NumberU64 block) txs.
Proof.
  intros Hfit Hres.
  destruct (DeriveBlockInputs_Ok_inv block receipts _ Hres)
    as (l1Tx & opaqueL1Tx & userDeposits & opaqueTxs
        & _ & Hl1 & HeL & Hu & HF & [= ->]).
  cbn [PayloadAttributes.Transactions].
  assert (Hl1' : DepositTx.TransactionIndex l1Tx = 0
                 /\ DepositTx.BlockHeight l1Tx = NumberU64 block).
  { unfold DeriveL1InfoDeposit in Hl1.
    destruct (FillBytes (BaseFee block) 32); cbn [bind] in Hl1;
      [discriminate|].
    injection Hl1 as <-. split; reflexivity. }
  destruct Hl1' as (Hi0 & Hh0).
  rewrite DeriveUserDeposits_decode in Hu by exact Hfit.
  destruct (decode_from (NumberU64 block) 1 (keptLogs receipts))
    as [deps|] eqn:E; [|discriminate].
  injection Hu as <-.
  destruct (decode_from_indices _ _ _ _ E) as (Hidx & Hh).
  exists (l1Tx :: deps). conjs.
  - constructor; assumption.
  - cbn [map List.length seq]. rewrite Hi0, Hidx. f_equal.
    rewrite (length_decode_from _ _ _ _ E).
    rewrite <- seq_shift, map_map. apply map_ext. intros k. lia.
  - constructor; assumption.
Qed.

End BlockInputsFurther.

Lemma DeriveBlockInputs_indices_witness :
  exists attrs txs,
    DeriveBlockInputs Sample.digest Sample.encode
      Sample.london_block Sample.receipts = Ret (Some attrs, None)
    /\ Forall2 (fun tx opaqueTx => Sample.encode tx = Ret (opaqueTx, None))
               txs (PayloadAttributes.Transactions attrs)
    /\ map DepositTx.TransactionIndex txs
       = map Z.of_nat (seq 0 (List.length txs)).
Proof.
  eexists.
  destruct (@DeriveBlockInputs_indices Sample.digest Sample.encode _
              Sample.Header_BlockInput Sample.london_block Sample.receipts _
              ltac:(unfold fits_int, MaxInt; vm_compute; discriminate)
              Sample_block_inputs)
    as (txs & HF & Hi & _).
  exists txs. conjs; [exact Sample_block_inputs | exact HF | exact Hi].
Defined.

Lemma DeriveBlockInputs_attributes_witness :
  exists attrs,
    DeriveBlockInputs Sample.digest Sample.encode
      Sample.london_block Sample.receipts = Ret (Some attrs, None)
    /\ PayloadAttributes.Timestamp attrs = 1000
    /\ List.length (PayloadAttributes.Transactions attrs) = 3%nat.
Proof.
  destruct (@DeriveBlockInputs_attributes Sample.digest Sample.encode _
              Sample.Header_BlockInput Sample.london_block Sample.receipts _
              Sample_block_inputs)
    as (attrs & Hres & _ & Ht & _ & Hl).
  exists attrs. rewrite Sample_block_inputs, Hres.
  conjs; [reflexivity | exact Ht | exact Hl].
Defined.

Section BlockInputsFailures.

Variable DeriveSha : list Receipt.t -> common.Hash.
Variable MarshalBinary : DepositTx.t -> outcome (bytes * option error).

Lemma encode_user_txs_first_error (i : Z) (before after : list DepositTx.t)
  (tx : DepositTx.t) (opaqueTx : bytes) (err : error)
  (encodedTxs : list bytes) :
  Forall (fun t => exists b, MarshalBinary t = Ret (b, None)) before ->
  MarshalBinary tx = Ret (opaqueTx, Some err) ->
  encode_user_txs MarshalBinary i (before ++ tx :: after) encodedTxs
  = Ret (Err (ErrEncodeUserTx (i + Z.of_nat (List.length before)))).
Proof.
  intros HF Htx. revert i encodedTxs.
  induction HF as [|t before (b & Hb) _ IH]; intros i encodedTxs;
    cbn [app encode_user_txs List.length].
  - rewrite Htx. cbn [bind snd]. rewrite Z.add_0_r. reflexivity.
  - rewrite Hb. cbn [bind snd fst]. rewrite IH. do 3 f_equal. lia.
Qed.

Lemma encode_user_txs_returns (i : Z) (userDeposits : list DepositTx.t)
  (encodedTxs : list bytes) :
  (forall tx, exists r, MarshalBinary tx = Ret r) ->
  exists r, encode_user_txs MarshalBinary i userDeposits encodedTxs = Ret r.
Proof.
  intros Hm. revert i encodedTxs.
  induction userDeposits as [|tx rest IH]; intros i encodedTxs;
    cbn [encode_user_txs]; [eauto|].
  destruct (Hm tx) as ([b [e|]] & ->); cbn [bind snd fst]; [eauto|].
  apply IH.
Qed.

(** X14. Past the receipts check the failures come in a fixed order: an
    L1-info transaction that does not encode is reported before the logs
    are looked at; then a kept log that does not decode; then the first
    user deposit that does not encode, by its position in the list of
    deposits, counted from 0. *)
Theorem DeriveBlockInputs_failure_order {B : Type} `{BlockInput B}
  (block : B) (receipts : list Receipt.t) (l1Tx : DepositTx.t) :
  CheckReceipts DeriveSha block receipts = true ->
  DeriveL1InfoDeposit block = Ret l1Tx ->
  let r := DeriveBlockInputs DeriveSha MarshalBinary block receipts in
  (forall b err,
      MarshalBinary l1Tx = Ret (b, Some err) ->
      r = Ret (None, Some ErrEncodeL1Info))
  /\ (forall b ds err,
         MarshalBinary l1Tx = Ret (b, None) ->
         DeriveUserDeposits (NumberU64 block) receipts = (ds, Some err) ->
         r = Ret (None, Some (ErrDeriveUserDeposits err)))
  /\ (forall b before tx after b' err,
         MarshalBinary l1Tx = Ret (b, None) ->
         DeriveUserDeposits (NumberU64 block) receipts
         = (before ++ tx :: after, None) ->
         Forall (fun t => exists b, MarshalBinary t = Ret (b, None)) before ->
         MarshalBinary tx = Ret (b', Some err) ->
         r = Ret (None,
                  Some (ErrEncodeUserTx (Z.of_nat (List.length before))))).
Proof.
  intros Hc Hl1. cbv zeta. unfold DeriveBlockInputs.
  rewrite Hc, Hl1. cbn [negb bind].
  conjs.
  - intros b err ->. reflexivity.
  - intros b ds err -> ->. reflexivity.
  - intros b before tx after b' err -> -> HF Htx. cbn [bind snd fst].
    rewrite (encode_user_txs_first_error 0 before after tx b' err _ HF Htx).
    reflexivity.
Qed.

(** X15. Past the receipts check a block without base fee makes
    [DeriveBlockInputs] panic instead of returning an error, whatever the
    encoder; with a base fee of absolute value below 2^256 and an encoder
    that does not panic, the call returns. *)
Theorem DeriveBlockInputs_panics {B : Type} `{BlockInput B}
  (block : B) (receipts : list Receipt.t) :
  CheckReceipts DeriveSha block receipts = true ->
  (BaseFee block = None ->
   DeriveBlockInputs DeriveSha MarshalBinary block receipts
   = Panic NilDereference)
  /\ (forall fee,
         BaseFee block = Some fee -> Z.abs fee < 2 ^ 256 ->
         (forall tx, exists r, MarshalBinary tx = Ret r) ->
         exists r,
           DeriveBlockInputs DeriveSha MarshalBinary block receipts = Ret r).
Proof.
  intros Hc. unfold DeriveBlockInputs. rewrite Hc. cbn [negb]. split.
  - intros Hfee. unfold DeriveL1InfoDeposit, FillBytes. rewrite Hfee.
    reflexivity.
  - intros fee Hfee Hlt Hm.
    unfold DeriveL1InfoDeposit at 1, FillBytes. rewrite Hfee.
    change (256 ^ Z.of_nat 32) with (2 ^ 256).
    destruct (Z.ltb_spec (Z.abs fee) (2 ^ 256)); [|lia].
    cbn [bind].
    match goal with
    | |- context [MarshalBinary ?t] =>
        destruct (Hm t) as ([b [e|]] & ->); cbn [bind snd fst]; [eauto|]
    end.
    destruct (DeriveUserDeposits (NumberU64 block) receipts) as [ds [e|]];
      [eauto|].
    destruct (encode_user_txs_returns 0 ds ([] ++ [b]) Hm) as ([out|e] & ->);
      cbn [bind]; eauto.
Qed.

End BlockInputsFailures.

(** The second deposit of the sample receipts is a creation: with an encoder
    that refuses those, the error names position 1. *)
Lemma DeriveBlockInputs_failure_order_witness :
  DeriveBlockInputs Sample.digest Sample.encode_calls_only
    Sample.london_block Sample.receipts
  = Ret (None, Some (ErrEncodeUserTx 1)).
Proof.
  destruct (DeriveL1InfoDeposit Sample.london_block) as [p|l1Tx] eqn:Hl1;
    [rewrite Sample_l1_info_deposit in Hl1; discriminate|].
  pose proof (@DeriveBlockInputs_failure_order Sample.digest
                Sample.encode_calls_only _ Sample.Header_BlockInput
                Sample.london_block Sample.receipts l1Tx
                ltac:(vm_compute; reflexivity) Hl1) as P.
  cbv zeta in P. destruct P as (_ & _ & P).
  rewrite Sample_l1_info_deposit in Hl1. injection Hl1 as <-.
  pose proof Sample_user_deposits as Hu.
  refine (P _ [_] _ [] _ _ _ Hu _ _).
  - vm_compute. reflexivity.
  - constructor; [|constructor]. eexists. vm_compute. reflexivity.
  - vm_compute. reflexivity.
Defined.

Lemma DeriveBlockInputs_panics_witness :
  DeriveBlockInputs Sample.digest Sample.encode
    Sample.pre_london_block Sample.receipts
  = Panic NilDereference.
Proof.
  refine (proj1 (@DeriveBlockInputs_panics Sample.digest Sample.encode _
                   Sample.Header_BlockInput Sample.pre_london_block
                   Sample.receipts _) eq_refl).
  vm_compute. reflexivity.
Defined.

(* ================================================================== *)
(** * C9: how the failures of the derivation are surfaced *)



Section ErrorsOfBlockInputs.

Variable DeriveSha : list Receipt.t -> common.Hash.
Variable MarshalBinary : DepositTx.t -> outcome (bytes * option error).




End ErrorsOfBlockInputs.

